(** * OpenRCT2-RideVehicleEditor: the binder and the component base class

    A shallow embedding of [applyBinding], [Binder.apply], [Binder.applyAll]
    (the binder module) and of [Component] (src/ui/component.ts), together
    with the collaborators they call: [Observable], [BindingContext] and
    [Log], which the binder imports. *)

From stdpp Require Import gmap strings list fin_maps.
From Stdlib Require Import ZArith.

Local Open Scope string_scope.
Local Open Scope list_scope.

(** ** Exceptions and mutable state

    JavaScript code mutates objects and may throw.  A computation takes the
    store and gives back an outcome together with the store as the throw or
    the return left it. *)

Inductive Error :=
| TypeError (msg : string)      (* raised by the language itself *)
| JsError (msg : string)        (* [throw new Error(msg)] *)
| BadRef (r : nat).             (* a reference to nothing: no JavaScript
                                   program can build one *)

Inductive Outcome (A : Type) :=
| Ok (a : A)
| Throw (e : Error).
Arguments Ok {A} a.
Arguments Throw {A} e.

Definition M (S A : Type) : Type := S -> Outcome A * S.

Section Monad.
Context {S : Type}.

Definition ret {A} (a : A) : M S A := fun s => (Ok a, s).

Definition bindM {A B} (m : M S A) (k : A -> M S B) : M S B :=
  fun s => match m s with
           | (Ok a, s') => k a s'
           | (Throw e, s') => (Throw e, s')
           end.

Definition throw {A} (e : Error) : M S A := fun s => (Throw e, s).

Definition modify (f : S -> S) : M S unit := fun s => (Ok tt, f s).

(** [for (const x of l) body(x)] *)
Fixpoint for_of {A} (l : list A) (body : A -> M S unit) : M S unit :=
  match l with
  | [] => ret tt
  | x :: rest => bindM (body x) (fun _ => for_of rest body)
  end.
End Monad.

Notation "'let*' x := m 'in' k" := (bindM m (fun x => k))
  (at level 10, x name, m at level 100, k at level 200, only parsing).
Notation "m ;; k" := (bindM m (fun _ => k))
  (at level 100, k at level 200, right associativity, only parsing).

(** ** Values, callbacks and the store *)

Definition Ref := nat.

(** The JavaScript values that reach the binder.  [VSetter r] is the arrow
    function [(v) => observable.set(v)] of applyBinding, closed over the
    observable at [r]. *)
Inductive Value :=
| VUndefined
| VNull
| VBool (b : bool)
| VNum (n : Z)
| VStr (s : string)
| VObject (id : nat)            (* an object that is not an Observable *)
| VObservable (r : Ref)
| VSetter (r : Ref).

(** Subscriber callbacks.  [CbSetField ctx f] is the arrow function
    [value => context.setField(toTarget, value)] of applyBinding, closed over
    the context and the field name; [CbHost id] is any subscriber the host
    application registered itself. *)
Inductive Callback :=
| CbSetField (ctx : nat) (field : string)
| CbHost (id : nat).

(** What the collaborators see, in the order it happens. *)
Inductive Event :=
| SetField (ctx : nat) (field : string) (v : Value)
| Invoked (id : nat) (v : Value)
| Debug (msg : string)
| Warning (msg : string).

#[global] Instance Value_eq_dec : EqDecision Value.
Proof. solve_decision. Defined.
#[global] Instance Callback_eq_dec : EqDecision Callback.
Proof. solve_decision. Defined.
#[global] Instance Event_eq_dec : EqDecision Event.
Proof. solve_decision. Defined.

(** Modelled from the spec: the fields of the class [Observable] (imported
    from "./observable", absent here).  A mutable single-value holder: the
    current value and the subscriber callbacks in subscription order. *)
Record ObservableState := mkObservable {
  obs_value : Value;
  obs_subscribers : list Callback
}.

Record World := mkWorld {
  heap : gmap Ref ObservableState;
  trace : list Event
}.

Definition emit (e : Event) : M World unit :=
  modify (fun w => mkWorld (heap w) (trace w ++ [e])).

Definition load (r : Ref) : M World ObservableState :=
  fun w => match heap w !! r with
           | Some o => (Ok o, w)
           | None => (Throw (BadRef r), w)
           end.

Definition store (r : Ref) (o : ObservableState) : M World unit :=
  modify (fun w => mkWorld (<[r := o]> (heap w)) (trace w)).

(** Modelled from the spec: [BindingContext.setField(name, value)] (imported
    from "./contexts/bindingContext", absent here).  The binder knows nothing
    of a context beyond this call; the call is recorded. *)
Definition setField (ctx : nat) (field : string) (v : Value) : M World unit :=
  emit (SetField ctx field v).

(** Modelled from the spec: the logger (imported from "../../helpers/logger",
    absent here); advisory only. *)
Module Log.
Definition debug (msg : string) : M World unit := emit (Debug msg).
Definition warning (msg : string) : M World unit := emit (Warning msg).
End Log.

(** Calling a subscriber with the new value. *)
Definition call (v : Value) (cb : Callback) : M World unit :=
  match cb with
  | CbSetField ctx field => setField ctx field v
  | CbHost id => emit (Invoked id v)
  end.

(** Modelled from the spec: the methods of [Observable]. [get] returns the
    current value; [set] stores the new value unconditionally, then invokes
    every subscriber in subscription order with it; [subscribe] appends the
    callback and does not invoke it. *)
Module Observable.
Definition get (r : Ref) : M World Value :=
  let* o := load r in ret (obs_value o).

Definition set (r : Ref) (v : Value) : M World unit :=
  let* o := load r in
  store r (mkObservable v (obs_subscribers o)) ;;
  for_of (obs_subscribers o) (call v).

Definition subscribe (r : Ref) (cb : Callback) : M World unit :=
  let* o := load r in
  store r (mkObservable (obs_value o) (obs_subscribers o ++ [cb])).
End Observable.

(** Calling a value as a function of one argument, as a view does with the
    handler it was given. *)
Definition invoke (f : Value) (v : Value) : M World unit :=
  match f with
  | VSetter r => Observable.set r v
  | _ => throw (TypeError "not a function")
  end.

(** ** The binder *)

(** A binding descriptor as applyBinding inspects it: a string (ToTarget), or
    an object whose keys may include [update] and [bind] (ToSource, TwoWay). *)
Inductive Binding :=
| BString (toTarget : string)
| BObject (props : gmap string string).

(** [Bindings]: the keys in [for ... in] order, each with its descriptor. *)
Definition Bindings := list (string * Binding).

(** A viewmodel: property name to value. *)
Definition ViewModel := gmap string Value.

(** [viewmodel[bindSource]] *)
Definition property (viewmodel : ViewModel) (bindSource : string) : Value :=
  default VUndefined (viewmodel !! bindSource).

(** [bindings[bindSource]] *)
Fixpoint descriptor (bindings : Bindings) (bindSource : string) : option Binding :=
  match bindings with
  | [] => None
  | (k, b) :: rest => if decide (k = bindSource) then Some b else descriptor rest bindSource
  end.

(** The keys [for (let bindSource in bindings)] visits. *)
Definition keys (bindings : Bindings) : list string := bindings.*1.

Definition typeof (v : Value) : string :=
  match v with
  | VUndefined => "undefined"
  | VNull => "object"
  | VBool _ => "boolean"
  | VNum _ => "number"
  | VStr _ => "string"
  | VObject _ => "object"
  | VObservable _ => "object"
  | VSetter _ => "function"
  end.

Definition applyBinding (context : nat) (viewmodel : ViewModel)
    (bindings : Bindings) (bindSource : string) : M World bool :=
  let observable := property viewmodel bindSource in
  match observable with
  | VUndefined => ret false
  | VObservable r =>
      match descriptor bindings bindSource with
      | Some (BString toTarget) =>            (* one way to target *)
          let* v := Observable.get r in
          setField context toTarget v ;;
          Observable.subscribe r (CbSetField context toTarget) ;;
          Log.debug ("Binding created: '" +:+ bindSource +:+ "' -> '" +:+ toTarget +:+ "'")
      | Some (BObject binding) =>
          match binding !! "update" with
          | Some update =>                    (* one way to source *)
              setField context update (VSetter r) ;;
              match binding !! "bind" with
              | Some toTarget =>              (* two way *)
                  let* v := Observable.get r in
                  setField context toTarget v ;;
                  Observable.subscribe r (CbSetField context toTarget) ;;
                  Log.debug ("Binding created: '" +:+ bindSource +:+ "' <-> '"
                             +:+ toTarget +:+ ":" +:+ update +:+ "'")
              | None =>
                  Log.debug ("Binding created: '" +:+ bindSource +:+ "' <- '"
                             +:+ update +:+ "'")
              end
          | None => ret tt
          end
      | None =>
          throw (TypeError "Cannot use 'in' operator to search for 'update' in undefined")
      end ;;
      ret true
  | _ =>
      Log.debug ("Binding failed: Observable is not an observable, but of type '"
                 +:+ typeof observable +:+ "'") ;;
      ret false
  end.

Module Binder.
(** The body of the loop of [apply] for one key. *)
Definition apply_key (context : nat) (viewmodel : ViewModel)
    (bindings : Bindings) (bindSource : string) : M World unit :=
  let* ok := applyBinding context viewmodel bindings bindSource in
  if negb ok
  then Log.warning ("Could not find observable property on viewmodel for '"
                    +:+ bindSource +:+ "'")
  else ret tt.

Definition apply (context : nat) (viewmodel : ViewModel) (bindings : Bindings)
    : M World unit :=
  for_of (keys bindings) (apply_key context viewmodel bindings).

(** The inner loop of [applyAll]: [success] is threaded through. *)
Fixpoint applyAll_vms (context : nat) (viewmodels : list ViewModel)
    (bindings : Bindings) (bindSource : string) (success : bool) : M World bool :=
  match viewmodels with
  | [] => ret success
  | vm :: rest =>
      let* ok := applyBinding context vm bindings bindSource in
      applyAll_vms context rest bindings bindSource (ok || success)
  end.

Definition applyAll_key (context : nat) (viewmodels : list ViewModel)
    (bindings : Bindings) (bindSource : string) : M World unit :=
  let* success := applyAll_vms context viewmodels bindings bindSource false in
  if negb success
  then Log.warning ("Could not find observable property on any viewmodels for '"
                    +:+ bindSource +:+ "'")
  else ret tt.

Definition applyAll (context : nat) (viewmodels : list ViewModel)
    (bindings : Bindings) : M World unit :=
  for_of (keys bindings) (applyAll_key context viewmodels bindings).
End Binder.

(** ** The component base class (src/ui/component.ts) *)

Module Component.
Section Component.
(** The properties of a widget other than [isDisabled]; the host's. *)
Variable Look : Type.

(** Modelled from the spec: the host's [Widget], with its read-write
    [isDisabled] flag (declared by the host application, absent here). *)
Record Widget := mkWidget {
  isDisabled : bool;
  look : Look
}.

(** Modelled from the spec: [WidgetDesc] (imported from "./widgetDesc",
    absent here), a name/identity token. *)
Record WidgetDesc := mkWidgetDesc {
  name : string
}.

(** The fields of a [Component]; [_window] holds a reference to a host
    window or [null]. *)
Record Fields := mkFields {
  _window : option nat;
  _description : WidgetDesc
}.

(** The component object and the host windows, each window with its widgets
    by name. *)
Record State := mkState {
  this : Fields;
  windows : gmap nat (gmap string Widget)
}.

(** A widget object is reached through its window and its name. *)
Definition Handle : Type := nat * string.

(** [protected abstract refreshWidget(widget: Widget): void], supplied by
    the subclass: it works on the widget it is given and may throw. *)
Variable refreshWidget : Fields -> M Widget unit.

(** [constructor(description)] *)
Definition new (description : WidgetDesc) : Fields :=
  mkFields None description.

(** Modelled from the spec: the host window's [findWidget(name)], which
    fails if the window has no such widget. *)
Definition findWidget (window : nat) (widgetName : string) : M State Handle :=
  fun st =>
    match windows st !! window with
    | None => (Throw (BadRef window), st)
    | Some widgets =>
        match widgets !! widgetName with
        | Some _ => (Ok (window, widgetName), st)
        | None => (Throw (JsError "widget not found"), st)
        end
    end.

(** Running code that works on one widget object. *)
Definition on_widget {A} (h : Handle) (m : M Widget A) : M State A :=
  fun st =>
    match windows st !! h.1 with
    | None => (Throw (BadRef h.1), st)
    | Some widgets =>
        match widgets !! h.2 with
        | None => (Throw (BadRef h.1), st)
        | Some wd =>
            let '(res, wd') := m wd in
            (res, mkState (this st) (<[h.1 := <[h.2 := wd']> widgets]> (windows st)))
        end
    end.

Definition getWidget : M State Handle :=
  fun st =>
    match _window (this st) with
    | None => (Throw (JsError "The window is gone."), st)
    | Some window => findWidget window (name (_description (this st))) st
    end.

Definition refresh : M State unit :=
  let* widget := getWidget in
  fun st => on_widget widget (refreshWidget (this st)) st.

Definition bind (window : nat) : M State unit :=
  modify (fun st => mkState (mkFields (Some window) (_description (this st))) (windows st)) ;;
  refresh.

Definition active (toggle : bool) : M State unit :=
  let* widget := getWidget in
  on_widget widget (modify (fun wd => mkWidget (negb toggle) (look wd))) ;;
  fun st => on_widget widget (refreshWidget (this st)) st.

(** The widget a handle reaches, if any. *)
Definition widget_at (h : Handle) (st : State) : option Widget :=
  windows st !! h.1 ≫= (.!! h.2).
End Component.

Arguments mkWidget {Look} isDisabled look.
Arguments isDisabled {Look} w.
Arguments look {Look} w.
Arguments mkState {Look} this windows.
Arguments this {Look} s.
Arguments windows {Look} s.
Arguments findWidget {Look} window widgetName _.
Arguments on_widget {Look A} h m _.
Arguments getWidget {Look} _.
Arguments refresh {Look} refreshWidget _.
Arguments bind {Look} refreshWidget window _.
Arguments active {Look} refreshWidget toggle _.
Arguments widget_at {Look} h st.
End Component.

(** ** The component, with refreshWidget as a method

    [refreshWidget] is a method of the subclass: it has the whole object at
    hand, and through [_window] the host.  Here it is any computation on the
    component and the windows that is given the widget; [Component] above has
    the subclasses that work on the widget they are given, as
    [Component.on_widget] runs them. *)

Module Subclass.
Section Subclass.
Context {Look : Type}.

(** [protected abstract refreshWidget(widget: Widget): void] *)
Variable refreshWidget : Component.Handle -> M (Component.State Look) unit.

Definition refresh : M (Component.State Look) unit :=
  let* widget := Component.getWidget in
  refreshWidget widget.

Definition bind (window : nat) : M (Component.State Look) unit :=
  modify (fun st => Component.mkState
                      (Component.mkFields (Some window)
                         (Component._description (Component.this st)))
                      (Component.windows st)) ;;
  refresh.

Definition active (toggle : bool) : M (Component.State Look) unit :=
  let* widget := Component.getWidget in
  Component.on_widget widget
    (modify (fun wd => Component.mkWidget (negb toggle) (Component.look wd))) ;;
  refreshWidget widget.

(** The subclass does not assign the component's fields. *)
Definition keeps_fields : Prop :=
  ∀ h st, Component.this (refreshWidget h st).2 = Component.this st.

(** The subclass touches no widget but the one it is given. *)
Definition keeps_other_widgets : Prop :=
  ∀ h h' st, h' ≠ h ->
    Component.widget_at h' (refreshWidget h st).2 = Component.widget_at h' st.
End Subclass.
End Subclass.

(** ** Vocabulary of the statements *)

(** The event a subscriber produces when it is called with [v]. *)
Definition fired (v : Value) (cb : Callback) : Event :=
  match cb with
  | CbSetField ctx field => SetField ctx field v
  | CbHost id => Invoked id v
  end.

Definition is_observable (v : Value) : bool :=
  match v with VObservable _ => true | _ => false end.

(** Every observable a viewmodel holds is an object of the store. *)
Definition resolved (vm : ViewModel) (w : World) : Prop :=
  ∀ k r, vm !! k = Some (VObservable r) → is_Some (heap w !! r).

(** [w'] is a later world than [w]: every observable is still there and has
    kept its subscribers, in order, possibly with more after them (there is
    no unsubscribe); the record of events has only grown. *)
Definition extends (w w' : World) : Prop :=
  (∀ r o, heap w !! r = Some o →
     ∃ o', heap w' !! r = Some o' ∧ obs_subscribers o `prefix_of` obs_subscribers o')
  ∧ trace w `prefix_of` trace w'.

(** No observable has changed its value (nor has one appeared). *)
Definition same_values (w w' : World) : Prop :=
  ∀ r, obs_value <$> (heap w' !! r) = obs_value <$> (heap w !! r).

(** Is the event a [setField] call? *)
Definition is_setField (e : Event) : bool :=
  match e with SetField _ _ _ => true | _ => false end.

(** Is it a [setField] call on field [F] of context [ctx]? *)
Definition pushes_to (ctx : nat) (F : string) (e : Event) : bool :=
  match e with
  | SetField c f _ => bool_decide (c = ctx) && bool_decide (f = F)
  | _ => false
  end.

Definition is_warning (e : Event) : bool :=
  match e with Warning _ => true | _ => false end.

(** The view field a descriptor's subscription pushes to, if it makes one:
    the string itself, or [bind] of an object that also has [update]. *)
Definition bind_target (b : Binding) : option string :=
  match b with
  | BString toTarget => Some toTarget
  | BObject props =>
      match props !! "update" with
      | Some _ => props !! "bind"
      | None => None
      end
  end.

Definition warning_apply (bindSource : string) : string :=
  "Could not find observable property on viewmodel for '" +:+ bindSource +:+ "'".

Definition warning_applyAll (bindSource : string) : string :=
  "Could not find observable property on any viewmodels for '" +:+ bindSource +:+ "'".

(** The debug lines of applyBinding. *)
Definition created_toTarget (bindSource toTarget : string) : string :=
  "Binding created: '" +:+ bindSource +:+ "' -> '" +:+ toTarget +:+ "'".

Definition created_twoWay (bindSource toTarget update : string) : string :=
  "Binding created: '" +:+ bindSource +:+ "' <-> '" +:+ toTarget +:+ ":" +:+ update +:+ "'".

Definition created_toSource (bindSource update : string) : string :=
  "Binding created: '" +:+ bindSource +:+ "' <- '" +:+ update +:+ "'".

Definition failed_typeof (observable : Value) : string :=
  "Binding failed: Observable is not an observable, but of type '"
  +:+ typeof observable +:+ "'".

(** The world after [Observable.subscribe r cb], where [o] is the observable at [r]. *)
Definition subscribed (r : Ref) (o : ObservableState) (cb : Callback)
    (h : gmap Ref ObservableState) : gmap Ref ObservableState :=
  <[r := mkObservable (obs_value o) (obs_subscribers o ++ [cb])]> h.

(** What the binder may do to a world: [extends], and no value changes. *)
Definition grows (w w' : World) : Prop := extends w w' ∧ same_values w w'.

(** How [Binder.apply] runs from [w] to [w'] when the keys are [ks1], then
    [K], then [ks2]: the keys before [K] take the world to [w1], the turn of
    [K] takes it to [w2], the keys after [K] to [w']. *)
Definition apply_run (ctx : nat) (vm : ViewModel) (bs : Bindings)
    (ks1 : list string) (K : string) (ks2 : list string) (w w1 w2 w' : World) : Prop :=
  for_of ks1 (Binder.apply_key ctx vm bs) w = (Ok tt, w1)
  ∧ Binder.apply_key ctx vm bs K w1 = (Ok tt, w2)
  ∧ for_of ks2 (Binder.apply_key ctx vm bs) w2 = (Ok tt, w')
  ∧ Binder.apply ctx vm bs w = (Ok tt, w').

(** After [set(v)] on the observable at [r] in world [w3]: the call returns,
    the calls it makes are those of the subscribers [subs], and [get()] then
    returns [v]. *)
Definition set_notifies (r : Ref) (v : Value) (w3 : World) (subs : list Callback) : Prop :=
  ∃ w4, Observable.set r v w3 = (Ok tt, w4)
        ∧ trace w4 = trace w3 ++ map (fired v) subs
        ∧ Observable.get r w4 = (Ok v, w4).

(** Does the viewmodel resolve the key: is its property an Observable? *)
Definition resolves (K : string) (vm : ViewModel) : bool :=
  is_observable (property vm K).

(** Only new events, and no warning among them. *)
Definition quiet (w w' : World) : Prop :=
  ∃ evs, trace w' = trace w ++ evs ∧ Forall (fun e => is_warning e = false) evs.

(** How [Binder.applyAll] runs from [w] to [w'], as [apply_run]. *)
Definition applyAll_run (ctx : nat) (vms : list ViewModel) (bs : Bindings)
    (ks1 : list string) (K : string) (ks2 : list string) (w w1 w2 w' : World) : Prop :=
  for_of ks1 (Binder.applyAll_key ctx vms bs) w = (Ok tt, w1)
  ∧ Binder.applyAll_key ctx vms bs K w1 = (Ok tt, w2)
  ∧ for_of ks2 (Binder.applyAll_key ctx vms bs) w2 = (Ok tt, w')
  ∧ Binder.applyAll ctx vms bs w = (Ok tt, w').

(** The events of [set(v)] on the observable at [r'], made in the world
    that [Binder.apply] leaves. *)
Definition set_after_apply (ctx : nat) (vm : ViewModel) (bs : Bindings) (w : World)
    (r' : Ref) (v : Value) : list Event :=
  let w' := (Binder.apply ctx vm bs w).2 in
  drop (length (trace w')) (trace (Observable.set r' v w').2).

(** The frame property of to-target bindings, read to the letter: once
    [apply] has bound [K] to [F], a [set] on any observable other than the
    one of [K] makes no [setField] call on [F]. *)
Definition frame_read_to_the_letter : Prop :=
  ∀ ctx vm bs w K F r r' v,
    resolved vm w ->
    K ∈ keys bs ->
    descriptor bs K = Some (BString F) ->
    vm !! K = Some (VObservable r) ->
    r' ≠ r ->
    is_Some (heap w !! r') ->
    filter (fun e => pushes_to ctx F e = true) (set_after_apply ctx vm bs w r' v) = [].

(** ** Vocabulary of the loops as a whole *)

(** The observable [o] with the callbacks [added] after its subscribers. *)
Definition add_subs (added : list Callback) (o : ObservableState) : ObservableState :=
  mkObservable (obs_value o) (obs_subscribers o ++ added).

(** The subscriber that binding the key [K] of viewmodel [vm] puts on the
    observable at [r]: one when [K] names that observable and its descriptor
    has a bind target, none otherwise. *)
Definition subscription (ctx : nat) (vm : ViewModel) (bs : Bindings) (r : Ref)
    (K : string) : list Callback :=
  match property vm K, descriptor bs K ≫= bind_target with
  | VObservable r', Some F => if decide (r' = r) then [CbSetField ctx F] else []
  | _, _ => []
  end.

(** The value held at [r] in a heap. *)
Definition value_at (h : gmap Ref ObservableState) (r : Ref) : Value :=
  default VUndefined (obs_value <$> h !! r).

(** The events of binding the key [K] of viewmodel [vm], with the values of
    the heap [h]. *)
Definition binding_events (ctx : nat) (vm : ViewModel) (bs : Bindings)
    (h : gmap Ref ObservableState) (K : string) : list Event :=
  match property vm K with
  | VUndefined => []
  | VObservable r =>
      match descriptor bs K with
      | Some (BString F) => [SetField ctx F (value_at h r); Debug (created_toTarget K F)]
      | Some (BObject props) =>
          match props !! "update" with
          | Some U =>
              SetField ctx U (VSetter r)
              :: match props !! "bind" with
                 | Some F => [SetField ctx F (value_at h r); Debug (created_twoWay K F U)]
                 | None => [Debug (created_toSource K U)]
                 end
          | None => []
          end
      | None => []
      end
  | _ => [Debug (failed_typeof (property vm K))]
  end.

(** What one binding does to a world. *)
Definition bound (ctx : nat) (vm : ViewModel) (bs : Bindings) (K : string)
    (w w' : World) : Prop :=
  (∀ r, heap w' !! r = add_subs (subscription ctx vm bs r K) <$> heap w !! r)
  ∧ trace w' = trace w ++ binding_events ctx vm bs (heap w) K.

(** The events of the turn of [K] in [Binder.apply] and in [Binder.applyAll]. *)
Definition apply_events (ctx : nat) (vm : ViewModel) (bs : Bindings)
    (h : gmap Ref ObservableState) (K : string) : list Event :=
  binding_events ctx vm bs h K
  ++ (if resolves K vm then [] else [Warning (warning_apply K)]).

Definition applyAll_events (ctx : nat) (vms : list ViewModel) (bs : Bindings)
    (h : gmap Ref ObservableState) (K : string) : list Event :=
  flat_map (fun vm => binding_events ctx vm bs h K) vms
  ++ (if existsb (resolves K) vms then [] else [Warning (warning_applyAll K)]).

(** The subscribers that [Binder.apply] and [Binder.applyAll] put on the
    observable at [r], in the order they are put. *)
Definition apply_subscriptions (ctx : nat) (vm : ViewModel) (bs : Bindings) (r : Ref)
    : list Callback :=
  flat_map (subscription ctx vm bs r) (keys bs).

Definition applyAll_subscriptions (ctx : nat) (vms : list ViewModel) (bs : Bindings)
    (r : Ref) : list Callback :=
  flat_map (fun K => flat_map (fun vm => subscription ctx vm bs r K) vms) (keys bs).

(** The events a computation adds to the record of [w]. *)
Definition new_events {A} (m : M World A) (w : World) : list Event :=
  drop (length (trace w)) (trace (m w).2).

(** Two events are the same but for the wording of a warning, which is that
    of [applyAll] in the first and that of [apply] in the second. *)
Definition same_but_wording (ea eb : Event) : Prop :=
  ea = eb ∨ ∃ K, ea = Warning (warning_applyAll K) ∧ eb = Warning (warning_apply K).

(** From [w] to [w']: each observable has got the subscribers [subs r] after
    its own and is otherwise the same, none has come or gone, and the events
    [evs] have been added. *)
Definition accumulated (subs : Ref -> list Callback) (evs : list Event)
    (w w' : World) : Prop :=
  (∀ r, heap w' !! r = add_subs (subs r) <$> heap w !! r)
  ∧ trace w' = trace w ++ evs.

(** What one binding of the key [K] establishes from [wa] to [wb] when [K]
    names the observable at [r]: if the descriptor has a bind target [F], the
    value the observable holds has been pushed to [F] and
    [value => context.setField(F, value)] is now its last subscriber; if the
    descriptor is an object with [update: U], the handler that sets the
    observable has been registered on [U]. *)
Definition established (ctx : nat) (vm : ViewModel) (bs : Bindings) (K : string)
    (wa wb : World) : Prop :=
  ∀ r, vm !! K = Some (VObservable r) ->
    (∀ F, descriptor bs K ≫= bind_target = Some F ->
       ∃ oa, heap wa !! r = Some oa
             ∧ heap wb !! r = Some (add_subs [CbSetField ctx F] oa)
             ∧ SetField ctx F (obs_value oa) ∈ drop (length (trace wa)) (trace wb))
    ∧ (∀ props U, descriptor bs K = Some (BObject props) ->
         props !! "update" = Some U ->
         SetField ctx U (VSetter r) ∈ drop (length (trace wa)) (trace wb)).

(** [resolved], as a check that runs. *)
Definition resolvedb (vm : ViewModel) (w : World) : bool :=
  forallb (fun kv : string * Value =>
             match kv.2 with
             | VObservable r => bool_decide (is_Some (heap w !! r))
             | _ => true
             end)
          (map_to_list vm).

(** ** Sample inputs *)

Module Sample.
(** Two observables, holding 0 and 40; the second already has a host
    subscriber. *)
Definition world : World :=
  mkWorld {[ 0%nat := mkObservable (VNum 0) [];
             1%nat := mkObservable (VNum 40) [CbHost 9] ]} [].

Definition viewmodel : ViewModel :=
  {[ "count" := VObservable 0%nat;
     "speed" := VObservable 1%nat;
     "title" := VStr "ride" ]}.

Definition toSource : Binding := BObject {[ "update" := "onSpin" ]}.
Definition twoWay : Binding := BObject {[ "bind" := "shown"; "update" := "edited" ]}.
Definition bindOnly : Binding := BObject {[ "bind" := "shown" ]}.

Definition bindings : Bindings :=
  [("ghost", BString "nowhere"); ("count", BString "label"); ("speed", toSource)].
End Sample.

Module SampleComponent.
(** A widget whose look is its text; the subclass writes the component's
    name into it. *)
Definition refreshWidget (c : Component.Fields) : M (Component.Widget string) unit :=
  modify (fun wd => Component.mkWidget (Component.isDisabled wd)
                      (Component.name (Component._description c))).

Definition state : Component.State string :=
  Component.mkState (Component.new (Component.mkWidgetDesc "spinner"))
    {[ 3%nat := {[ "spinner" := Component.mkWidget true "";
                   "other" := Component.mkWidget true "" ]} ]}.
End SampleComponent.

Module SampleSubclass.
(** The subclass of [SampleComponent] as a method. *)
Definition refreshWidget (h : Component.Handle) : M (Component.State string) unit :=
  fun st => Component.on_widget h (SampleComponent.refreshWidget (Component.this st)) st.

(** A subclass whose refreshWidget lets go of the window. *)
Definition forgetful (h : Component.Handle) : M (Component.State string) unit :=
  modify (fun st => Component.mkState
                      (Component.mkFields None (Component._description (Component.this st)))
                      (Component.windows st)).

(** A window that has no widget of the name the component asks for. *)
Definition astray : Component.State string :=
  Component.mkState (Component.new (Component.mkWidgetDesc "missing"))
    (Component.windows SampleComponent.state).
End SampleSubclass.

(** ** The monad *)

Section MonadFacts.
Context {S : Type}.

Lemma bindM_ok {A B} (m : M S A) (k : A -> M S B) s a s' :
  m s = (Ok a, s') -> bindM m k s = k a s'.
Proof. unfold bindM. intros ->. reflexivity. Qed.

Lemma bindM_throw {A B} (m : M S A) (k : A -> M S B) s e s' :
  m s = (Throw e, s') -> bindM m k s = (Throw e, s').
Proof. unfold bindM. intros ->. reflexivity. Qed.

Lemma for_of_app {A} (l1 l2 : list A) (body : A -> M S unit) s :
  for_of (l1 ++ l2) body s = (for_of l1 body ;; for_of l2 body) s.
Proof.
  revert s. induction l1 as [|x l1 IH]; intros s; simpl.
  - reflexivity.
  - unfold bindM in *. destruct (body x s) as [[[]|e] s1]; [apply IH|reflexivity].
Qed.

Lemma for_of_cons {A} (x : A) (l : list A) (body : A -> M S unit) s :
  for_of (x :: l) body s = (body x ;; for_of l body) s.
Proof. reflexivity. Qed.
End MonadFacts.

(** ** The observable *)

Lemma call_fired v cb w :
  call v cb w = (Ok tt, mkWorld (heap w) (trace w ++ [fired v cb])).
Proof. destruct cb; reflexivity. Qed.

Lemma notify_all v subs w :
  for_of subs (call v) w = (Ok tt, mkWorld (heap w) (trace w ++ map (fired v) subs)).
Proof.
  revert w. induction subs as [|cb subs IH]; intros [h t]; simpl.
  - by rewrite app_nil_r.
  - erewrite bindM_ok by apply call_fired.
    rewrite IH. simpl. by rewrite <- app_assoc.
Qed.

Lemma get_spec r o w :
  heap w !! r = Some o -> Observable.get r w = (Ok (obs_value o), w).
Proof. intros H. unfold Observable.get, bindM, load. by rewrite H. Qed.

Lemma set_spec r o v w :
  heap w !! r = Some o ->
  Observable.set r v w =
    (Ok tt, mkWorld (<[r := mkObservable v (obs_subscribers o)]> (heap w))
                    (trace w ++ map (fired v) (obs_subscribers o))).
Proof.
  intros H. unfold Observable.set, bindM at 1, load. rewrite H.
  unfold bindM, store, modify. by rewrite notify_all.
Qed.

Lemma subscribe_spec r o cb w :
  heap w !! r = Some o ->
  Observable.subscribe r cb w =
    (Ok tt, mkWorld (<[r := mkObservable (obs_value o) (obs_subscribers o ++ [cb])]> (heap w))
                    (trace w)).
Proof. intros H. unfold Observable.subscribe, bindM, load. by rewrite H. Qed.

Lemma subscribe_all r o cbs w :
  heap w !! r = Some o ->
  ∃ w1, for_of cbs (Observable.subscribe r) w = (Ok tt, w1)
        ∧ heap w1 !! r = Some (mkObservable (obs_value o) (obs_subscribers o ++ cbs))
        ∧ trace w1 = trace w.
Proof.
  revert o w. induction cbs as [|cb cbs IH]; intros o w H.
  - exists w. rewrite app_nil_r. by destruct o.
  - simpl. erewrite bindM_ok by (by apply subscribe_spec).
    destruct (IH (mkObservable (obs_value o) (obs_subscribers o ++ [cb]))
                 (mkWorld (<[r := mkObservable (obs_value o) (obs_subscribers o ++ [cb])]> (heap w))
                          (trace w))) as (w1 & E & Hh & Ht).
    { simpl. apply lookup_insert_eq. }
    exists w1. split; [exact E|]. simpl in *. by rewrite <- app_assoc in Hh.
Qed.

(** C7 (on the observable as the spec describes it).  After the callbacks
    [cbs] have been subscribed in that order to an observable that already had
    the subscribers of [o], [set(v)] returns, [get()] then returns [v], and
    the calls made are exactly one per subscriber, each with [v], the earlier
    subscribers first and all in subscription order.  Nothing compares [v]
    with the value held before: the same holds when they are equal. *)
Theorem set_stores_then_notifies_in_order r o cbs v w :
  heap w !! r = Some o ->
  ∃ w1 w2,
    for_of cbs (Observable.subscribe r) w = (Ok tt, w1)
    ∧ Observable.set r v w1 = (Ok tt, w2)
    ∧ Observable.get r w2 = (Ok v, w2)
    ∧ trace w2 = trace w ++ map (fired v) (obs_subscribers o ++ cbs)
    ∧ heap w2 !! r = Some (mkObservable v (obs_subscribers o ++ cbs)).
Proof.
  intros H. destruct (subscribe_all r o cbs w H) as (w1 & E1 & Hh & Ht).
  exists w1. eexists. split; [exact E1|].
  split; [by apply set_spec|]. simpl.
  assert (Hl : (<[r := mkObservable v (obs_subscribers o ++ cbs)]> (heap w1)) !! r
               = Some (mkObservable v (obs_subscribers o ++ cbs)))
    by apply lookup_insert_eq.
  split; [|split].
  - apply (get_spec r (mkObservable v (obs_subscribers o ++ cbs))). exact Hl.
  - by rewrite Ht.
  - exact Hl.
Qed.

Lemma set_stores_then_notifies_in_order_witness :
  ∃ w1 w2,
    for_of [CbHost 1; CbSetField 7 "label"] (Observable.subscribe 0%nat)
      (mkWorld {[ 0%nat := mkObservable (VNum 5) [CbHost 0] ]} []) = (Ok tt, w1)
    ∧ Observable.set 0%nat (VNum 5) w1 = (Ok tt, w2)
    ∧ Observable.get 0%nat w2 = (Ok (VNum 5), w2)
    ∧ trace w2 = [] ++ map (fired (VNum 5)) ([CbHost 0] ++ [CbHost 1; CbSetField 7 "label"])
    ∧ heap w2 !! 0%nat = Some (mkObservable (VNum 5) ([CbHost 0] ++ [CbHost 1; CbSetField 7 "label"])).
Proof.
  apply (set_stores_then_notifies_in_order 0%nat (mkObservable (VNum 5) [CbHost 0])
           [CbHost 1; CbSetField 7 "label"] (VNum 5)
           (mkWorld {[ 0%nat := mkObservable (VNum 5) [CbHost 0] ]} [])).
  reflexivity.
Defined.

(** ** applyBinding, case by case *)

(** Running the straight-line code of the binder on a world in which the
    observable at hand is known ([H : heap w !! r = Some o]). *)
Ltac run_with H :=
  repeat (progress (unfold bindM, Observable.get, Observable.subscribe, load, setField,
                      Log.debug, emit, modify, store, ret;
                    simpl; rewrite ?H)).

Lemma property_observable vm K r :
  property vm K = VObservable r <-> vm !! K = Some (VObservable r).
Proof.
  unfold property. destruct (vm !! K) as [x|]; simpl; split; intros H;
    try congruence; discriminate.
Qed.

Lemma applyBinding_absent ctx vm bs K w :
  property vm K = VUndefined ->
  applyBinding ctx vm bs K w = (Ok false, w).
Proof. unfold applyBinding. intros ->. reflexivity. Qed.

Lemma applyBinding_not_observable ctx vm bs K w :
  property vm K ≠ VUndefined ->
  is_observable (property vm K) = false ->
  applyBinding ctx vm bs K w =
    (Ok false, mkWorld (heap w) (trace w ++ [Debug (failed_typeof (property vm K))])).
Proof.
  unfold applyBinding, failed_typeof. intros Hu Ho.
  destruct (property vm K); try reflexivity; [congruence | discriminate].
Qed.

Lemma applyBinding_toTarget ctx vm bs K w r F o :
  property vm K = VObservable r ->
  descriptor bs K = Some (BString F) ->
  heap w !! r = Some o ->
  applyBinding ctx vm bs K w =
    (Ok true, mkWorld (subscribed r o (CbSetField ctx F) (heap w))
                      (trace w ++ [SetField ctx F (obs_value o);
                                   Debug (created_toTarget K F)])).
Proof.
  unfold applyBinding. intros -> -> H. run_with H.
  by rewrite <- app_assoc.
Qed.

Lemma applyBinding_toSource ctx vm bs K w r props U :
  property vm K = VObservable r ->
  descriptor bs K = Some (BObject props) ->
  props !! "update" = Some U ->
  props !! "bind" = None ->
  applyBinding ctx vm bs K w =
    (Ok true, mkWorld (heap w)
                      (trace w ++ [SetField ctx U (VSetter r);
                                   Debug (created_toSource K U)])).
Proof.
  unfold applyBinding. intros -> -> -> ->.
  unfold bindM, setField, Log.debug, emit, modify, ret. simpl.
  by rewrite <- app_assoc.
Qed.

Lemma applyBinding_twoWay ctx vm bs K w r props U F o :
  property vm K = VObservable r ->
  descriptor bs K = Some (BObject props) ->
  props !! "update" = Some U ->
  props !! "bind" = Some F ->
  heap w !! r = Some o ->
  applyBinding ctx vm bs K w =
    (Ok true, mkWorld (subscribed r o (CbSetField ctx F) (heap w))
                      (trace w ++ [SetField ctx U (VSetter r);
                                   SetField ctx F (obs_value o);
                                   Debug (created_twoWay K F U)])).
Proof.
  unfold applyBinding. intros -> -> -> -> H. run_with H.
  by rewrite <- !app_assoc.
Qed.

Lemma applyBinding_noUpdate ctx vm bs K w r props :
  property vm K = VObservable r ->
  descriptor bs K = Some (BObject props) ->
  props !! "update" = None ->
  applyBinding ctx vm bs K w = (Ok true, w).
Proof. unfold applyBinding. intros -> -> ->. reflexivity. Qed.

(** ** Later worlds *)

Lemma extends_refl w : extends w w.
Proof. split; [|done]. intros r o H. by exists o. Qed.

Lemma extends_trans w1 w2 w3 : extends w1 w2 -> extends w2 w3 -> extends w1 w3.
Proof.
  intros [H12 T12] [H23 T23]. split; [|by etrans].
  intros r o H. destruct (H12 r o H) as (o2 & H2 & P2).
  destruct (H23 r o2 H2) as (o3 & H3 & P3). exists o3. split; [done|by etrans].
Qed.

Lemma same_values_refl w : same_values w w.
Proof. by intros r. Qed.

Lemma same_values_trans w1 w2 w3 :
  same_values w1 w2 -> same_values w2 w3 -> same_values w1 w3.
Proof. intros H12 H23 r. by rewrite H23, H12. Qed.

Lemma grows_refl w : grows w w.
Proof. split; [apply extends_refl|apply same_values_refl]. Qed.

Lemma grows_trans w1 w2 w3 : grows w1 w2 -> grows w2 w3 -> grows w1 w3.
Proof.
  intros [E12 V12] [E23 V23].
  split; [by eapply extends_trans|by eapply same_values_trans].
Qed.

Lemma grows_emit w evs : grows w (mkWorld (heap w) (trace w ++ evs)).
Proof.
  split; [split|]; simpl.
  - intros r o H. by exists o.
  - by apply prefix_app_r.
  - by intros r.
Qed.

Lemma grows_subscribed w r o cb evs :
  heap w !! r = Some o ->
  grows w (mkWorld (subscribed r o cb (heap w)) (trace w ++ evs)).
Proof.
  intros H. unfold subscribed. split; [split|]; simpl.
  - intros r' o' H'. destruct (decide (r = r')) as [<-|Hne].
    + rewrite lookup_insert_eq. eexists. split; [done|].
      simpl. assert (o' = o) as -> by congruence. by apply prefix_app_r.
    + rewrite lookup_insert_ne by done. by exists o'.
  - by apply prefix_app_r.
  - intros r'. simpl. destruct (decide (r = r')) as [<-|Hne].
    + rewrite lookup_insert_eq, H. done.
    + by rewrite lookup_insert_ne.
Qed.

Lemma resolved_extends vm w w' : extends w w' -> resolved vm w -> resolved vm w'.
Proof.
  intros [E _] R k r Hk. destruct (R k r Hk) as [o Ho].
  destruct (E r o Ho) as (o' & Ho' & _). by exists o'.
Qed.

Lemma descriptor_keys bs K : K ∈ keys bs -> is_Some (descriptor bs K).
Proof.
  unfold keys. induction bs as [|[k b] bs IH]; simpl.
  - intros H. by apply elem_of_nil in H.
  - intros H. destruct (decide (k = K)); [by eexists|].
    apply IH. apply elem_of_cons in H as [H|H]; [congruence|done].
Qed.

(** In a world that holds the viewmodel's observables, applyBinding returns;
    it returns whether the property is an Observable, provided that bindings
    has the key when it is one. *)
Lemma applyBinding_grows ctx vm bs K w :
  resolved vm w ->
  (is_observable (property vm K) = true -> is_Some (descriptor bs K)) ->
  ∃ w', applyBinding ctx vm bs K w = (Ok (is_observable (property vm K)), w')
        ∧ grows w w'.
Proof.
  intros R D. destruct (property vm K) as [| | | | | |r|] eqn:P;
    try (eexists; split;
         [ rewrite applyBinding_not_observable by (rewrite P; done); by rewrite P
         | apply grows_emit ]).
  - exists w. split; [by apply applyBinding_absent|apply grows_refl].
  - destruct (R K r) as [o Ho]; [by apply property_observable|].
    destruct D as [[F|props] Hd]; [done| |].
    + eexists. split; [by eapply applyBinding_toTarget|by apply grows_subscribed].
    + destruct (props !! "update") as [U|] eqn:HU.
      * destruct (props !! "bind") as [F|] eqn:HF.
        -- eexists. split; [by eapply applyBinding_twoWay|by apply grows_subscribed].
        -- eexists. split; [by eapply applyBinding_toSource|apply grows_emit].
      * exists w. split; [by eapply applyBinding_noUpdate|apply grows_refl].
Qed.

(** ** The loop of apply *)

Lemma apply_key_unfold ctx vm bs K w b w' :
  applyBinding ctx vm bs K w = (Ok b, w') ->
  Binder.apply_key ctx vm bs K w =
    (Ok tt, if b then w' else mkWorld (heap w') (trace w' ++ [Warning (warning_apply K)])).
Proof.
  intros H. unfold Binder.apply_key. erewrite bindM_ok by exact H.
  destruct b; reflexivity.
Qed.

Lemma apply_key_grows ctx vm bs K w :
  resolved vm w -> K ∈ keys bs ->
  ∃ w', Binder.apply_key ctx vm bs K w = (Ok tt, w') ∧ grows w w'.
Proof.
  intros R HK.
  destruct (applyBinding_grows ctx vm bs K w R) as (w1 & E & G).
  { intros _. by apply descriptor_keys. }
  eexists. split; [by eapply apply_key_unfold|].
  destruct (is_observable (property vm K)); [done|].
  eapply grows_trans; [exact G|apply grows_emit].
Qed.

Lemma apply_keys_grows ctx vm bs ks w :
  resolved vm w -> (∀ k, k ∈ ks -> k ∈ keys bs) ->
  ∃ w', for_of ks (Binder.apply_key ctx vm bs) w = (Ok tt, w') ∧ grows w w'.
Proof.
  revert w. induction ks as [|k ks IH]; intros w R Hks.
  - exists w. split; [done|apply grows_refl].
  - destruct (apply_key_grows ctx vm bs k w R) as (w1 & E1 & G1).
    { apply Hks. by left. }
    destruct (IH w1) as (w' & E' & G').
    { eapply resolved_extends; [apply G1|done]. }
    { intros k' Hk'. apply Hks. by right. }
    exists w'. split; [|by eapply grows_trans].
    rewrite for_of_cons. by erewrite bindM_ok by exact E1.
Qed.

Lemma apply_split ctx vm bs ks1 K ks2 w :
  resolved vm w ->
  keys bs = ks1 ++ K :: ks2 ->
  ∃ w1 w2 w', apply_run ctx vm bs ks1 K ks2 w w1 w2 w'
              ∧ grows w w1 ∧ grows w1 w2 ∧ grows w2 w'.
Proof.
  intros R Hk.
  assert (In1 : ∀ k, k ∈ ks1 -> k ∈ keys bs).
  { intros k H. rewrite Hk. apply elem_of_app. by left. }
  assert (InK : K ∈ keys bs).
  { rewrite Hk. apply elem_of_app. right. by left. }
  assert (In2 : ∀ k, k ∈ ks2 -> k ∈ keys bs).
  { intros k H. rewrite Hk. apply elem_of_app. right. by right. }
  destruct (apply_keys_grows ctx vm bs ks1 w R In1) as (w1 & E1 & G1).
  assert (R1 : resolved vm w1) by (eapply resolved_extends; [apply G1|done]).
  destruct (apply_key_grows ctx vm bs K w1 R1 InK) as (w2 & E2 & G2).
  assert (R2 : resolved vm w2) by (eapply resolved_extends; [apply G2|done]).
  destruct (apply_keys_grows ctx vm bs ks2 w2 R2 In2) as (w' & E3 & G3).
  exists w1, w2, w'. repeat split; try done; try apply G1; try apply G2; try apply G3.
  unfold Binder.apply. rewrite Hk, for_of_app.
  erewrite bindM_ok by exact E1. rewrite for_of_cons.
  by erewrite bindM_ok by exact E2.
Qed.

(** A subscription is for good: in every later world, a [set] on the
    observable calls the subscriber. *)
Lemma subscription_persists r o2 cb w2 w3 v :
  heap w2 !! r = Some o2 ->
  cb ∈ obs_subscribers o2 ->
  extends w2 w3 ->
  ∃ o3, heap w3 !! r = Some o3
        ∧ set_notifies r v w3 (obs_subscribers o3)
        ∧ fired v cb ∈ map (fired v) (obs_subscribers o3).
Proof.
  intros H2 Hcb [E _]. destruct (E r o2 H2) as (o3 & H3 & P).
  exists o3. split; [done|]. split.
  - eexists. split; [by apply set_spec|]. split; [done|].
    apply (get_spec r (mkObservable v (obs_subscribers o3))).
    simpl. apply lookup_insert_eq.
  - apply list_elem_of_fmap. exists cb. split; [done|].
    destruct P as [more ->]. apply elem_of_app. by left.
Qed.

Lemma value_kept w w1 r o :
  grows w w1 -> heap w !! r = Some o ->
  ∃ o1, heap w1 !! r = Some o1 ∧ obs_value o1 = obs_value o.
Proof.
  intros [[E _] V] H. destruct (E r o H) as (o1 & H1 & _).
  exists o1. split; [done|]. specialize (V r). rewrite H, H1 in V.
  simpl in V. congruence.
Qed.

(** ** Binder.apply, to-target bindings *)

(** C1.  Let [K] be a key of the bindings whose descriptor is the string [F]
    and whose viewmodel property is the observable at [r], holding
    [obs_value o] when [apply] is called.  Then [apply] returns, and the turn
    of [K] in its loop makes exactly one [setField] call, [setField(F, value)]
    with that value, followed by the debug line, and appends the callback
    [value => context.setField(F, value)] to the subscribers of [r].  From
    then on, in the world [apply] leaves and in every later one, [set(v)] on
    that observable returns and calls [setField(F, v)]. *)
Theorem apply_to_target_pushes_and_subscribes ctx vm bs ks1 K ks2 w F r o :
  resolved vm w ->
  keys bs = ks1 ++ K :: ks2 ->
  descriptor bs K = Some (BString F) ->
  vm !! K = Some (VObservable r) ->
  heap w !! r = Some o ->
  ∃ w1 w2 w' o1,
    apply_run ctx vm bs ks1 K ks2 w w1 w2 w'
    ∧ heap w1 !! r = Some o1 ∧ obs_value o1 = obs_value o
    ∧ trace w2 = trace w1 ++ [SetField ctx F (obs_value o); Debug (created_toTarget K F)]
    ∧ filter (fun e => is_setField e = true) (drop (length (trace w1)) (trace w2))
      = [SetField ctx F (obs_value o)]
    ∧ heap w2 = subscribed r o1 (CbSetField ctx F) (heap w1)
    ∧ extends w2 w'
    ∧ ∀ w3 v, extends w2 w3 ->
        ∃ o3, heap w3 !! r = Some o3
              ∧ set_notifies r v w3 (obs_subscribers o3)
              ∧ SetField ctx F v ∈ map (fired v) (obs_subscribers o3).
Proof.
  intros R Hk Hd Hvm Ho.
  destruct (apply_split ctx vm bs ks1 K ks2 w R Hk) as (w1 & w2 & w' & Run & G1 & G2 & G3).
  destruct (value_kept w w1 r o G1 Ho) as (o1 & Ho1 & Hv).
  exists w1, w2, w', o1.
  assert (P : property vm K = VObservable r) by by apply property_observable.
  pose proof (applyBinding_toTarget ctx vm bs K w1 r F o1 P Hd Ho1) as Step.
  apply apply_key_unfold in Step.
  rewrite (proj1 (proj2 Run)) in Step. injection Step as ->.
  split_and!; try done.
  - simpl. by rewrite Hv.
  - simpl. by rewrite drop_app_length, Hv.
  - apply G3.
  - intros w3 v Hext.
    eapply (subscription_persists r
             (mkObservable (obs_value o1) (obs_subscribers o1 ++ [CbSetField ctx F]))
             (CbSetField ctx F)); [| |exact Hext].
    + simpl. apply lookup_insert_eq.
    + simpl. apply elem_of_app. right. by left.
Qed.

(** The scenario of the spec: [{ count: "label" }] on a viewmodel whose
    [count] is [Observable(0)], then [viewmodel.count.set(3)]. *)
Example scenario_count_label :
  let w := mkWorld {[ 0%nat := mkObservable (VNum 0) [] ]} [] in
  let vm : ViewModel := {[ "count" := VObservable 0%nat ]} in
  let w' := (Binder.apply 7 vm [("count", BString "label")] w).2 in
  filter (fun e => is_setField e = true) (trace w') = [SetField 7 "label" (VNum 0)]
  ∧ drop (length (trace w')) (trace (Observable.set 0%nat (VNum 3) w').2)
    = [SetField 7 "label" (VNum 3)].
Proof. vm_compute. done. Qed.

Lemma resolvedb_sound vm w : resolvedb vm w = true -> resolved vm w.
Proof.
  unfold resolvedb. rewrite forallb_forall. intros H k r Hk.
  specialize (H (k, VObservable r)). simpl in H.
  eapply bool_decide_eq_true_1, H, list_elem_of_In.
  by apply elem_of_map_to_list.
Qed.

Lemma apply_to_target_pushes_and_subscribes_witness :
  ∃ w1 w2 w' o1,
    apply_run 7 Sample.viewmodel Sample.bindings ["ghost"] "count" ["speed"]
      Sample.world w1 w2 w'
    ∧ heap w1 !! 0%nat = Some o1 ∧ obs_value o1 = obs_value (mkObservable (VNum 0) [])
    ∧ trace w2 = trace w1 ++ [SetField 7 "label" (obs_value (mkObservable (VNum 0) []));
                              Debug (created_toTarget "count" "label")]
    ∧ filter (fun e => is_setField e = true) (drop (length (trace w1)) (trace w2))
      = [SetField 7 "label" (obs_value (mkObservable (VNum 0) []))]
    ∧ heap w2 = subscribed 0%nat o1 (CbSetField 7 "label") (heap w1)
    ∧ extends w2 w'
    ∧ ∀ w3 v, extends w2 w3 ->
        ∃ o3, heap w3 !! 0%nat = Some o3
              ∧ set_notifies 0%nat v w3 (obs_subscribers o3)
              ∧ SetField 7 "label" v ∈ map (fired v) (obs_subscribers o3).
Proof.
  apply (apply_to_target_pushes_and_subscribes 7 Sample.viewmodel Sample.bindings
           ["ghost"] "count" ["speed"] Sample.world "label" 0%nat
           (mkObservable (VNum 0) [])).
  - apply resolvedb_sound. vm_compute. reflexivity.
  - reflexivity.
  - reflexivity.
  - reflexivity.
  - reflexivity.
Defined.

(** ** Binder.apply, two-way and to-source bindings *)

(** C4.  Let [K] be a key whose descriptor is an object with [bind: A] and
    [update: B] and whose viewmodel property is the observable at [r].  Then
    [apply] returns, and the turn of [K] (a) pushes the observable's value to
    [A] and subscribes [value => context.setField(A, value)], so that every
    later [set(v)] pushes [v] to [A]; (b) registers on [B], by
    [setField(B, handler)], a handler that is [(v) => observable.set(v)]:
    calling it with [v] is [set(v)].  The handler goes to [B] and the values
    go to [A], whatever the two names are. *)
Theorem apply_two_way_binds_both_directions ctx vm bs ks1 K ks2 w props A B r o :
  resolved vm w ->
  keys bs = ks1 ++ K :: ks2 ->
  descriptor bs K = Some (BObject props) ->
  props !! "bind" = Some A ->
  props !! "update" = Some B ->
  vm !! K = Some (VObservable r) ->
  heap w !! r = Some o ->
  ∃ w1 w2 w' o1,
    apply_run ctx vm bs ks1 K ks2 w w1 w2 w'
    ∧ heap w1 !! r = Some o1 ∧ obs_value o1 = obs_value o
    ∧ trace w2 = trace w1 ++ [SetField ctx B (VSetter r);
                              SetField ctx A (obs_value o);
                              Debug (created_twoWay K A B)]
    ∧ heap w2 = subscribed r o1 (CbSetField ctx A) (heap w1)
    ∧ extends w2 w'
    ∧ ∀ w3 v, extends w2 w3 ->
        ∃ o3, heap w3 !! r = Some o3
              ∧ set_notifies r v w3 (obs_subscribers o3)
              ∧ SetField ctx A v ∈ map (fired v) (obs_subscribers o3)
              ∧ invoke (VSetter r) v w3 = Observable.set r v w3.
Proof.
  intros R Hk Hd HA HB Hvm Ho.
  destruct (apply_split ctx vm bs ks1 K ks2 w R Hk) as (w1 & w2 & w' & Run & G1 & G2 & G3).
  destruct (value_kept w w1 r o G1 Ho) as (o1 & Ho1 & Hv).
  exists w1, w2, w', o1.
  assert (P : property vm K = VObservable r) by by apply property_observable.
  pose proof (applyBinding_twoWay ctx vm bs K w1 r props B A o1 P Hd HB HA Ho1) as Step.
  apply apply_key_unfold in Step.
  rewrite (proj1 (proj2 Run)) in Step. injection Step as ->.
  split_and!; try done.
  - simpl. by rewrite Hv.
  - apply G3.
  - intros w3 v Hext.
    eapply (subscription_persists r
              (mkObservable (obs_value o1) (obs_subscribers o1 ++ [CbSetField ctx A]))
              (CbSetField ctx A)) in Hext as (o3 & H3 & N & I).
    + exists o3. by split_and!.
    + simpl. apply lookup_insert_eq.
    + simpl. apply elem_of_app. right. by left.
Qed.

Lemma apply_two_way_binds_both_directions_witness :
  ∃ w1 w2 w' o1,
    apply_run 7 Sample.viewmodel [("count", Sample.twoWay)] [] "count" []
      Sample.world w1 w2 w'
    ∧ heap w1 !! 0%nat = Some o1 ∧ obs_value o1 = obs_value (mkObservable (VNum 0) [])
    ∧ trace w2 = trace w1 ++ [SetField 7 "edited" (VSetter 0%nat);
                              SetField 7 "shown" (obs_value (mkObservable (VNum 0) []));
                              Debug (created_twoWay "count" "shown" "edited")]
    ∧ heap w2 = subscribed 0%nat o1 (CbSetField 7 "shown") (heap w1)
    ∧ extends w2 w'
    ∧ ∀ w3 v, extends w2 w3 ->
        ∃ o3, heap w3 !! 0%nat = Some o3
              ∧ set_notifies 0%nat v w3 (obs_subscribers o3)
              ∧ SetField 7 "shown" v ∈ map (fired v) (obs_subscribers o3)
              ∧ invoke (VSetter 0%nat) v w3 = Observable.set 0%nat v w3.
Proof.
  apply (apply_two_way_binds_both_directions 7 Sample.viewmodel
           [("count", Sample.twoWay)] [] "count" [] Sample.world
           {[ "bind" := "shown"; "update" := "edited" ]} "shown" "edited" 0%nat
           (mkObservable (VNum 0) [])).
  - apply resolvedb_sound. vm_compute. reflexivity.
  - reflexivity.
  - reflexivity.
  - reflexivity.
  - reflexivity.
  - reflexivity.
  - reflexivity.
Defined.

(** C5.  Let [K] be a key whose descriptor is an object with [update: U]
    (with or without [bind]) and whose viewmodel property is the observable
    at [r].  Then [apply] returns, and the first thing the turn of [K] does is
    [setField(U, handler)]; in the world [apply] leaves and in every later
    one, calling that handler with any [v] is [set(v)] on the observable: it
    returns, and [get()] then returns [v]. *)
Theorem apply_to_source_installs_setter ctx vm bs ks1 K ks2 w props U r :
  resolved vm w ->
  keys bs = ks1 ++ K :: ks2 ->
  descriptor bs K = Some (BObject props) ->
  props !! "update" = Some U ->
  vm !! K = Some (VObservable r) ->
  ∃ w1 w2 w' handler rest,
    apply_run ctx vm bs ks1 K ks2 w w1 w2 w'
    ∧ trace w2 = trace w1 ++ SetField ctx U handler :: rest
    ∧ extends w2 w'
    ∧ ∀ w3 v, extends w2 w3 ->
        ∃ w4, invoke handler v w3 = (Ok tt, w4)
              ∧ invoke handler v w3 = Observable.set r v w3
              ∧ Observable.get r w4 = (Ok v, w4).
Proof.
  intros R Hk Hd HU Hvm.
  destruct (apply_split ctx vm bs ks1 K ks2 w R Hk) as (w1 & w2 & w' & Run & G1 & G2 & G3).
  assert (R1 : resolved vm w1) by (eapply resolved_extends; [apply G1|done]).
  destruct (R1 K r Hvm) as [o1 Ho1].
  assert (P : property vm K = VObservable r) by by apply property_observable.
  assert (Later : ∀ w3 v, extends w2 w3 ->
            ∃ w4, invoke (VSetter r) v w3 = (Ok tt, w4)
                  ∧ invoke (VSetter r) v w3 = Observable.set r v w3
                  ∧ Observable.get r w4 = (Ok v, w4)).
  { intros w3 v [E3 _].
    destruct (proj1 (proj1 G2) r o1 Ho1) as (o2 & Ho2 & _).
    destruct (E3 r o2 Ho2) as (o3 & Ho3 & _).
    eexists. simpl. split; [by apply set_spec|]. split; [done|].
    apply (get_spec r (mkObservable v (obs_subscribers o3))).
    simpl. apply lookup_insert_eq. }
  exists w1, w2, w', (VSetter r).
  destruct (props !! "bind") as [A|] eqn:HA.
  - pose proof (applyBinding_twoWay ctx vm bs K w1 r props U A o1 P Hd HU HA Ho1) as Step.
    apply apply_key_unfold in Step.
    pose proof Step as Step2. rewrite (proj1 (proj2 Run)) in Step2.
    injection Step2 as E2.
    exists [SetField ctx A (obs_value o1); Debug (created_twoWay K A U)].
    split_and!; try done.
    + by rewrite E2.
    + apply G3.
  - pose proof (applyBinding_toSource ctx vm bs K w1 r props U P Hd HU HA) as Step.
    apply apply_key_unfold in Step.
    pose proof Step as Step2. rewrite (proj1 (proj2 Run)) in Step2.
    injection Step2 as E2. exists [Debug (created_toSource K U)].
    split_and!; try done.
    + by rewrite E2.
    + apply G3.
Qed.

Lemma apply_to_source_installs_setter_witness :
  ∃ w1 w2 w' handler rest,
    apply_run 7 Sample.viewmodel Sample.bindings ["ghost"; "count"] "speed" []
      Sample.world w1 w2 w'
    ∧ trace w2 = trace w1 ++ SetField 7 "onSpin" handler :: rest
    ∧ extends w2 w'
    ∧ ∀ w3 v, extends w2 w3 ->
        ∃ w4, invoke handler v w3 = (Ok tt, w4)
              ∧ invoke handler v w3 = Observable.set 1%nat v w3
              ∧ Observable.get 1%nat w4 = (Ok v, w4).
Proof.
  apply (apply_to_source_installs_setter 7 Sample.viewmodel Sample.bindings
           ["ghost"; "count"] "speed" [] Sample.world
           {[ "update" := "onSpin" ]} "onSpin" 1%nat).
  - apply resolvedb_sound. vm_compute. reflexivity.
  - reflexivity.
  - reflexivity.
  - reflexivity.
  - reflexivity.
Defined.

(** ** Binder.apply, what is not bound *)

(** C9.  Let [K] be a key whose viewmodel property is an observable and whose
    descriptor is an object without [update] (with [bind] alone, say).  Then
    applyBinding returns [true] and leaves the world as it was: no [setField]
    call, no subscription, no log line.  So [apply] returns and the turn of
    [K] changes nothing: no warning either. *)
Theorem object_without_update_is_dropped_silently ctx vm bs ks1 K ks2 w props r :
  resolved vm w ->
  keys bs = ks1 ++ K :: ks2 ->
  descriptor bs K = Some (BObject props) ->
  props !! "update" = None ->
  vm !! K = Some (VObservable r) ->
  (∀ w0, applyBinding ctx vm bs K w0 = (Ok true, w0))
  ∧ ∃ w1 w', apply_run ctx vm bs ks1 K ks2 w w1 w1 w'.
Proof.
  intros R Hk Hd HU Hvm.
  assert (P : property vm K = VObservable r) by by apply property_observable.
  assert (Step : ∀ w0, applyBinding ctx vm bs K w0 = (Ok true, w0)).
  { intros w0. by eapply applyBinding_noUpdate. }
  split; [exact Step|].
  destruct (apply_split ctx vm bs ks1 K ks2 w R Hk) as (w1 & w2 & w' & Run & _).
  exists w1, w'. pose proof (apply_key_unfold _ _ _ _ _ _ _ (Step w1)) as E.
  rewrite (proj1 (proj2 Run)) in E. injection E as ->. exact Run.
Qed.

Lemma object_without_update_is_dropped_silently_witness :
  (∀ w0, applyBinding 7 Sample.viewmodel
           [("count", Sample.bindOnly); ("speed", Sample.toSource)] "count" w0
         = (Ok true, w0))
  ∧ ∃ w1 w', apply_run 7 Sample.viewmodel
               [("count", Sample.bindOnly); ("speed", Sample.toSource)]
               [] "count" ["speed"] Sample.world w1 w1 w'.
Proof.
  apply (object_without_update_is_dropped_silently 7 Sample.viewmodel
           [("count", Sample.bindOnly); ("speed", Sample.toSource)]
           [] "count" ["speed"] Sample.world {[ "bind" := "shown" ]} 0%nat).
  - apply resolvedb_sound. vm_compute. reflexivity.
  - reflexivity.
  - reflexivity.
  - reflexivity.
  - reflexivity.
Defined.

(** C10.  For a two-way descriptor ([bind: A], [update: B]) on a resolved
    observable, the [setField] call that registers the handler on [B] comes
    strictly before the [setField] call that pushes the value to [A]: they are
    the first and the second thing the turn of [K] does, and its only
    [setField] calls. *)
Theorem two_way_registers_handler_before_first_push ctx vm bs ks1 K ks2 w props A B r o :
  resolved vm w ->
  keys bs = ks1 ++ K :: ks2 ->
  descriptor bs K = Some (BObject props) ->
  props !! "bind" = Some A ->
  props !! "update" = Some B ->
  vm !! K = Some (VObservable r) ->
  heap w !! r = Some o ->
  ∃ w1 w2 w',
    apply_run ctx vm bs ks1 K ks2 w w1 w2 w'
    ∧ trace w2 !! length (trace w1) = Some (SetField ctx B (VSetter r))
    ∧ trace w2 !! S (length (trace w1)) = Some (SetField ctx A (obs_value o))
    ∧ filter (fun e => is_setField e = true) (drop (length (trace w1)) (trace w2))
      = [SetField ctx B (VSetter r); SetField ctx A (obs_value o)].
Proof.
  intros R Hk Hd HA HB Hvm Ho.
  destruct (apply_split ctx vm bs ks1 K ks2 w R Hk) as (w1 & w2 & w' & Run & G1 & G2 & G3).
  destruct (value_kept w w1 r o G1 Ho) as (o1 & Ho1 & Hv).
  exists w1, w2, w'.
  assert (P : property vm K = VObservable r) by by apply property_observable.
  pose proof (applyBinding_twoWay ctx vm bs K w1 r props B A o1 P Hd HB HA Ho1) as Step.
  apply apply_key_unfold in Step.
  rewrite (proj1 (proj2 Run)) in Step. injection Step as ->.
  split; [done|]. simpl. rewrite Hv. split_and!.
  - rewrite lookup_app_r by done. by rewrite Nat.sub_diag.
  - rewrite lookup_app_r by lia.
    by replace (S (length (trace w1)) - length (trace w1))%nat with 1%nat by lia.
  - by rewrite drop_app_length.
Qed.

Lemma two_way_registers_handler_before_first_push_witness :
  ∃ w1 w2 w',
    apply_run 7 Sample.viewmodel [("speed", Sample.toSource); ("count", Sample.twoWay)]
      ["speed"] "count" [] Sample.world w1 w2 w'
    ∧ trace w2 !! length (trace w1) = Some (SetField 7 "edited" (VSetter 0%nat))
    ∧ trace w2 !! S (length (trace w1))
      = Some (SetField 7 "shown" (obs_value (mkObservable (VNum 0) [])))
    ∧ filter (fun e => is_setField e = true) (drop (length (trace w1)) (trace w2))
      = [SetField 7 "edited" (VSetter 0%nat);
         SetField 7 "shown" (obs_value (mkObservable (VNum 0) []))].
Proof.
  apply (two_way_registers_handler_before_first_push 7 Sample.viewmodel
           [("speed", Sample.toSource); ("count", Sample.twoWay)]
           ["speed"] "count" [] Sample.world
           {[ "bind" := "shown"; "update" := "edited" ]} "shown" "edited" 0%nat
           (mkObservable (VNum 0) [])).
  - apply resolvedb_sound. vm_compute. reflexivity.
  - reflexivity.
  - reflexivity.
  - reflexivity.
  - reflexivity.
  - reflexivity.
  - reflexivity.
Defined.

(** The two ways of not resolving, run: an absent property gives the warning
    alone, a property that is not an Observable gives the debug line and the
    warning; the key after them is bound all the same. *)
Example unresolved_keys_run :
  trace (Binder.apply 7 Sample.viewmodel
           [("ghost", BString "nowhere"); ("title", BString "caption");
            ("count", BString "label")] Sample.world).2
  = [Warning "Could not find observable property on viewmodel for 'ghost'";
     Debug "Binding failed: Observable is not an observable, but of type 'string'";
     Warning "Could not find observable property on viewmodel for 'title'";
     SetField 7 "label" (VNum 0);
     Debug "Binding created: 'count' -> 'label'"].
Proof. vm_compute. reflexivity. Qed.

(** ** Binder.applyAll *)

Lemma quiet_refl w : quiet w w.
Proof. exists []. split; [by rewrite app_nil_r|constructor]. Qed.

Lemma quiet_trans w1 w2 w3 : quiet w1 w2 -> quiet w2 w3 -> quiet w1 w3.
Proof.
  intros (e1 & T1 & F1) (e2 & T2 & F2). exists (e1 ++ e2). split.
  - by rewrite T2, T1, app_assoc.
  - by apply Forall_app.
Qed.

Lemma applyBinding_quiet ctx vm bs K w :
  resolved vm w ->
  (is_observable (property vm K) = true -> is_Some (descriptor bs K)) ->
  ∃ w', applyBinding ctx vm bs K w = (Ok (resolves K vm), w') ∧ quiet w w'.
Proof.
  intros R D. unfold resolves. destruct (property vm K) as [| | | | | |r|] eqn:P;
    try (eexists; split;
         [ rewrite applyBinding_not_observable by (rewrite P; done); by rewrite P
         | eexists; split; [reflexivity|by repeat constructor] ]).
  - exists w. split; [by apply applyBinding_absent|apply quiet_refl].
  - destruct (R K r) as [o Ho]; [by apply property_observable|].
    destruct D as [[F|props] Hd]; [done| |].
    + eexists. split; [by eapply applyBinding_toTarget|].
      eexists; split; [reflexivity|by repeat constructor].
    + destruct (props !! "update") as [U|] eqn:HU.
      * destruct (props !! "bind") as [F|] eqn:HF.
        -- eexists. split; [by eapply applyBinding_twoWay|].
           eexists; split; [reflexivity|by repeat constructor].
        -- eexists. split; [by eapply applyBinding_toSource|].
           eexists; split; [reflexivity|by repeat constructor].
      * exists w. split; [by eapply applyBinding_noUpdate|apply quiet_refl].
Qed.

Lemma applyBinding_step ctx vm bs K w :
  resolved vm w -> K ∈ keys bs ->
  ∃ w', applyBinding ctx vm bs K w = (Ok (resolves K vm), w') ∧ grows w w' ∧ quiet w w'.
Proof.
  intros R HK.
  destruct (applyBinding_grows ctx vm bs K w R) as (w1 & E1 & G).
  { intros _. by apply descriptor_keys. }
  destruct (applyBinding_quiet ctx vm bs K w R) as (w2 & E2 & Q).
  { intros _. by apply descriptor_keys. }
  unfold resolves in *. rewrite E1 in E2. injection E2 as <-. by exists w1.
Qed.

Lemma resolved_all_extends vms w w' :
  extends w w' -> Forall (fun vm => resolved vm w) vms -> Forall (fun vm => resolved vm w') vms.
Proof.
  intros E H. eapply Forall_impl; [exact H|]. intros vm. by apply resolved_extends.
Qed.

Lemma applyAll_vms_app ctx pre post bs K s w :
  Binder.applyAll_vms ctx (pre ++ post) bs K s w =
    (let* s1 := Binder.applyAll_vms ctx pre bs K s in
     Binder.applyAll_vms ctx post bs K s1) w.
Proof.
  revert s w. induction pre as [|vm pre IH]; intros s w; simpl.
  - reflexivity.
  - unfold bindM in *. destruct (applyBinding ctx vm bs K w) as [[b|e] w1]; [apply IH|done].
Qed.

Lemma applyAll_vms_step ctx vms bs K s w :
  Forall (fun vm => resolved vm w) vms -> K ∈ keys bs ->
  ∃ w', Binder.applyAll_vms ctx vms bs K s w = (Ok (existsb (resolves K) vms || s), w')
        ∧ grows w w' ∧ quiet w w'.
Proof.
  revert s w. induction vms as [|vm vms IH]; intros s w R HK.
  - exists w. split; [done|]. split; [apply grows_refl|apply quiet_refl].
  - apply Forall_cons in R as [Rvm Rvms].
    destruct (applyBinding_step ctx vm bs K w Rvm HK) as (w1 & E1 & G1 & Q1).
    destruct (IH (resolves K vm || s) w1) as (w' & E' & G' & Q'); [|done|].
    { eapply resolved_all_extends; [apply G1|done]. }
    exists w'. split; [|split; [by eapply grows_trans|by eapply quiet_trans]].
    simpl. erewrite bindM_ok by exact E1. rewrite E'.
    do 2 f_equal. by destruct (resolves K vm), (existsb (resolves K) vms), s.
Qed.

Lemma applyAll_key_step ctx vms bs K w :
  Forall (fun vm => resolved vm w) vms -> K ∈ keys bs ->
  ∃ wv, Binder.applyAll_vms ctx vms bs K false w = (Ok (existsb (resolves K) vms), wv)
        ∧ grows w wv ∧ quiet w wv
        ∧ Binder.applyAll_key ctx vms bs K w =
            (Ok tt, if existsb (resolves K) vms then wv
                    else mkWorld (heap wv) (trace wv ++ [Warning (warning_applyAll K)])).
Proof.
  intros R HK.
  destruct (applyAll_vms_step ctx vms bs K false w R HK) as (wv & E & G & Q).
  rewrite orb_false_r in E. exists wv. split_and!; try done.
  unfold Binder.applyAll_key. erewrite bindM_ok by exact E.
  by destruct (existsb (resolves K) vms).
Qed.

Lemma applyAll_key_grows ctx vms bs K w :
  Forall (fun vm => resolved vm w) vms -> K ∈ keys bs ->
  ∃ w', Binder.applyAll_key ctx vms bs K w = (Ok tt, w') ∧ grows w w'.
Proof.
  intros R HK.
  destruct (applyAll_key_step ctx vms bs K w R HK) as (wv & _ & G & _ & E).
  eexists. split; [exact E|].
  destruct (existsb (resolves K) vms); [done|].
  eapply grows_trans; [exact G|apply grows_emit].
Qed.

Lemma applyAll_keys_grows ctx vms bs ks w :
  Forall (fun vm => resolved vm w) vms -> (∀ k, k ∈ ks -> k ∈ keys bs) ->
  ∃ w', for_of ks (Binder.applyAll_key ctx vms bs) w = (Ok tt, w') ∧ grows w w'.
Proof.
  revert w. induction ks as [|k ks IH]; intros w R Hks.
  - exists w. split; [done|apply grows_refl].
  - destruct (applyAll_key_grows ctx vms bs k w R) as (w1 & E1 & G1).
    { apply Hks. by left. }
    destruct (IH w1) as (w' & E' & G').
    { eapply resolved_all_extends; [apply G1|done]. }
    { intros k' Hk'. apply Hks. by right. }
    exists w'. split; [|by eapply grows_trans].
    rewrite for_of_cons. by erewrite bindM_ok by exact E1.
Qed.

Lemma applyAll_split ctx vms bs ks1 K ks2 w :
  Forall (fun vm => resolved vm w) vms ->
  keys bs = ks1 ++ K :: ks2 ->
  ∃ w1 w2 w', applyAll_run ctx vms bs ks1 K ks2 w w1 w2 w'
              ∧ grows w w1 ∧ grows w1 w2 ∧ grows w2 w'.
Proof.
  intros R Hk.
  assert (In1 : ∀ k, k ∈ ks1 -> k ∈ keys bs).
  { intros k H. rewrite Hk. apply elem_of_app. by left. }
  assert (InK : K ∈ keys bs).
  { rewrite Hk. apply elem_of_app. right. by left. }
  assert (In2 : ∀ k, k ∈ ks2 -> k ∈ keys bs).
  { intros k H. rewrite Hk. apply elem_of_app. right. by right. }
  destruct (applyAll_keys_grows ctx vms bs ks1 w R In1) as (w1 & E1 & G1).
  assert (R1 : Forall (fun vm => resolved vm w1) vms)
    by (eapply resolved_all_extends; [apply G1|done]).
  destruct (applyAll_key_grows ctx vms bs K w1 R1 InK) as (w2 & E2 & G2).
  assert (R2 : Forall (fun vm => resolved vm w2) vms)
    by (eapply resolved_all_extends; [apply G2|done]).
  destruct (applyAll_keys_grows ctx vms bs ks2 w2 R2 In2) as (w' & E3 & G3).
  exists w1, w2, w'. split_and!; try done.
  unfold applyAll_run. split_and!; try done.
  unfold Binder.applyAll. rewrite Hk, for_of_app.
  erewrite bindM_ok by exact E1. rewrite for_of_cons.
  by erewrite bindM_ok by exact E2.
Qed.

Lemma filter_no_warning evs :
  Forall (fun e => is_warning e = false) evs ->
  filter (fun e => is_warning e = true) evs = [].
Proof.
  induction 1 as [|e evs He _ IH]; [done|].
  rewrite filter_cons_False; [done|]. by rewrite He.
Qed.

(** The scenario of the spec: a key on the second viewmodel only binds
    without a warning (and both viewmodels that have it are bound); a key on
    neither gives one warning. *)
Example scenario_applyAll :
  trace (Binder.applyAll 7 [{[ "title" := VStr "other" ]}; Sample.viewmodel; Sample.viewmodel]
           [("count", BString "label"); ("ghost", BString "nowhere")] Sample.world).2
  = [SetField 7 "label" (VNum 0);
     Debug "Binding created: 'count' -> 'label'";
     SetField 7 "label" (VNum 0);
     Debug "Binding created: 'count' -> 'label'";
     Warning "Could not find observable property on any viewmodels for 'ghost'"].
Proof. vm_compute. reflexivity. Qed.

(** ** The frame of a to-target binding *)

Lemma pushes_to_fired ctx F v cb :
  pushes_to ctx F (fired v cb) = true -> cb = CbSetField ctx F.
Proof.
  destruct cb as [c f|id]; simpl; [|discriminate].
  intros H. apply andb_true_iff in H as [Hc Hf].
  apply bool_decide_eq_true_1 in Hc, Hf. by subst.
Qed.

Lemma no_push_without_subscriber ctx F v subs :
  CbSetField ctx F ∉ subs ->
  filter (fun e => pushes_to ctx F e = true) (map (fired v) subs) = [].
Proof.
  induction subs as [|cb subs IH]; intros Hno; [done|]. simpl.
  rewrite filter_cons_False.
  - apply IH. intros H. apply Hno. by right.
  - intros H. apply pushes_to_fired in H. apply Hno. rewrite H. by left.
Qed.

(** C6 as it is stated fails: with [{ count: "label", speed: "label" }] on a
    viewmodel whose [count] and [speed] are two observables, [apply] binds
    [count] to [label], and then [set(5)] on the observable of [speed], which
    is not the one of [count], calls [setField("label", 5)]. *)
Lemma shared_field_breaks_the_letter : ¬ frame_read_to_the_letter.
Proof.
  intros H.
  specialize (H 7 Sample.viewmodel
                [("count", BString "label"); ("speed", BString "label")]
                Sample.world "count" "label" 0%nat 1%nat (VNum 5)).
  assert (E : set_after_apply 7 Sample.viewmodel
                [("count", BString "label"); ("speed", BString "label")]
                Sample.world 1%nat (VNum 5)
              = [Invoked 9 (VNum 5); SetField 7 "label" (VNum 5)])
    by (vm_compute; reflexivity).
  rewrite E in H.
  assert (filter (fun e => pushes_to 7 "label" e = true)
            [Invoked 9 (VNum 5); SetField 7 "label" (VNum 5)] = []) as Hnil.
  { apply H.
    - apply resolvedb_sound. vm_compute. reflexivity.
    - by left.
    - reflexivity.
    - reflexivity.
    - lia.
    - by eexists. }
  vm_compute in Hnil. discriminate Hnil.
Qed.

(** The run behind it. *)
Example shared_field_run :
  let bs := [("count", BString "label"); ("speed", BString "label")] in
  (Binder.apply 7 Sample.viewmodel bs Sample.world).1 = Ok tt
  ∧ descriptor bs "count" = Some (BString "label")
  ∧ Sample.viewmodel !! "count" = Some (VObservable 0%nat)
  ∧ Sample.viewmodel !! "speed" = Some (VObservable 1%nat)
  ∧ set_after_apply 7 Sample.viewmodel bs Sample.world 1%nat (VNum 5)
    = [Invoked 9 (VNum 5); SetField 7 "label" (VNum 5)].
Proof. vm_compute. done. Qed.

(** ** The component *)

Section ComponentFacts.
Context {Look : Type}.
Variable refreshWidget : Component.Fields -> M (Component.Widget Look) unit.

Lemma getWidget_unbound (st : Component.State Look) :
  Component._window (Component.this st) = None ->
  Component.getWidget st = (Throw (JsError "The window is gone."), st).
Proof. unfold Component.getWidget. by intros ->. Qed.

Lemma getWidget_bound (st : Component.State Look) host widgets wd :
  Component._window (Component.this st) = Some host ->
  Component.windows st !! host = Some widgets ->
  widgets !! Component.name (Component._description (Component.this st)) = Some wd ->
  Component.getWidget st
  = (Ok (host, Component.name (Component._description (Component.this st))), st).
Proof.
  unfold Component.getWidget, Component.findWidget. intros -> Hw Hwd.
  by rewrite Hw, Hwd.
Qed.

Lemma on_widget_spec {A} (h : Component.Handle) (m : M (Component.Widget Look) A)
    (st : Component.State Look) widgets wd :
  Component.windows st !! h.1 = Some widgets ->
  widgets !! h.2 = Some wd ->
  Component.on_widget h m st
  = ((m wd).1,
     Component.mkState (Component.this st)
       (<[h.1 := <[h.2 := (m wd).2]> widgets]> (Component.windows st))).
Proof.
  unfold Component.on_widget. intros -> ->. by destruct (m wd).
Qed.

(** C8.  For every component, whatever its subclass does in refreshWidget:
    while no host is bound, [active(toggle)] throws the error of getWidget and
    changes nothing.  When the host has the component's widget and the
    subclass's refreshWidget returns, [bind(host)] returns and leaves the
    component bound, and then [active(toggle)] returns: the widget it resolves
    is handed to refreshWidget with [isDisabled] set to the negation of
    [toggle] ([false] for [active(true)]), and stays so if refreshWidget does
    not touch the flag. *)
Theorem active_throws_unbound_and_enables_once_bound (toggle : bool) :
  (∀ st : Component.State Look,
     Component._window (Component.this st) = None ->
     Component.active refreshWidget toggle st
     = (Throw (JsError "The window is gone."), st))
  ∧ (∀ (st : Component.State Look) host widgets wd,
       Component.windows st !! host = Some widgets ->
       widgets !! Component.name (Component._description (Component.this st)) = Some wd ->
       (∀ c x, (refreshWidget c x).1 = Ok tt) ->
       let h := (host, Component.name (Component._description (Component.this st))) in
       ∃ st1 wd1 st2,
         Component.bind refreshWidget host st = (Ok tt, st1)
         ∧ Component._window (Component.this st1) = Some host
         ∧ Component.widget_at h st1 = Some wd1
         ∧ Component.active refreshWidget toggle st1 = (Ok tt, st2)
         ∧ Component.widget_at h st2
           = Some (refreshWidget (Component.this st1)
                     (Component.mkWidget (negb toggle) (Component.look wd1))).2
         ∧ ((∀ c x, Component.isDisabled (refreshWidget c x).2 = Component.isDisabled x) ->
            Component.isDisabled <$> Component.widget_at h st2 = Some (negb toggle))).
Proof.
  split.
  - intros st Hnone. unfold Component.active.
    by erewrite bindM_throw by (by apply getWidget_unbound).
  - intros st host widgets wd Hw Hwd Hret h.
    set (desc := Component._description (Component.this st)) in *.
    set (sta := Component.mkState (Component.mkFields (Some host) desc) (Component.windows st)).
    set (wd1 := (refreshWidget (Component.this sta) wd).2).
    set (st1 := Component.mkState (Component.this sta)
                  (<[host := <[Component.name desc := wd1]> widgets]> (Component.windows st))).
    assert (Ebind : Component.bind refreshWidget host st = (Ok tt, st1)).
    { unfold Component.bind. erewrite bindM_ok by reflexivity. fold sta.
      unfold Component.refresh.
      erewrite bindM_ok by (by apply (getWidget_bound sta host widgets wd)).
      rewrite (on_widget_spec _ _ sta widgets wd) by done.
      by rewrite Hret. }
    assert (Hw1 : Component.windows st1 !! host = Some (<[Component.name desc := wd1]> widgets))
      by apply lookup_insert_eq.
    assert (Hwd1 : <[Component.name desc := wd1]> widgets !! Component.name desc = Some wd1)
      by apply lookup_insert_eq.
    set (off := Component.mkWidget (negb toggle) (Component.look wd1)).
    set (st1' := Component.mkState (Component.this st1)
                   (<[host := <[Component.name desc := off]>
                                (<[Component.name desc := wd1]> widgets)]>
                      (Component.windows st1))).
    set (wd2 := (refreshWidget (Component.this st1) off).2).
    set (st2 := Component.mkState (Component.this st1')
                  (<[host := <[Component.name desc := wd2]>
                               (<[Component.name desc := off]>
                                  (<[Component.name desc := wd1]> widgets))]>
                     (Component.windows st1'))).
    assert (Eact : Component.active refreshWidget toggle st1 = (Ok tt, st2)).
    { unfold Component.active.
      erewrite bindM_ok
        by (by apply (getWidget_bound st1 host (<[Component.name desc := wd1]> widgets) wd1)).
      unfold bindM.
      rewrite (on_widget_spec (host, Component.name desc) _ st1
                 (<[Component.name desc := wd1]> widgets) wd1) by done.
      cbn [modify fst snd]. fold off. fold st1'.
      rewrite (on_widget_spec (host, Component.name desc) _ st1'
                 (<[Component.name desc := off]> (<[Component.name desc := wd1]> widgets)) off);
        [|apply lookup_insert_eq|apply lookup_insert_eq].
      by rewrite Hret. }
    assert (Hat2 : Component.widget_at h st2 = Some wd2).
    { unfold Component.widget_at, h. simpl. rewrite lookup_insert_eq. simpl.
      apply lookup_insert_eq. }
    exists st1, wd1, st2. split_and!; try done.
    + unfold Component.widget_at, h. simpl. rewrite lookup_insert_eq. simpl.
      apply lookup_insert_eq.
    + intros Hkeep. rewrite Hat2. simpl. f_equal. unfold wd2. by rewrite Hkeep.
Qed.
End ComponentFacts.

Lemma active_throws_unbound_and_enables_once_bound_witness :
  Component.active SampleComponent.refreshWidget true SampleComponent.state
  = (Throw (JsError "The window is gone."), SampleComponent.state)
  ∧ ∃ st1 wd1 st2,
      Component.bind SampleComponent.refreshWidget 3%nat SampleComponent.state = (Ok tt, st1)
      ∧ Component._window (Component.this st1) = Some 3%nat
      ∧ Component.widget_at (3%nat, "spinner") st1 = Some wd1
      ∧ Component.active SampleComponent.refreshWidget true st1 = (Ok tt, st2)
      ∧ Component.isDisabled <$> Component.widget_at (3%nat, "spinner") st2 = Some false.
Proof.
  destruct (active_throws_unbound_and_enables_once_bound SampleComponent.refreshWidget true)
    as [Unbound Bound].
  split.
  - apply Unbound. reflexivity.
  - destruct (Bound SampleComponent.state 3%nat
                {[ "spinner" := Component.mkWidget true "";
                   "other" := Component.mkWidget true "" ]}
                (Component.mkWidget true ""))
      as (st1 & wd1 & st2 & Hbind & Hwin & Hat1 & Hact & _ & Hflag).
    + reflexivity.
    + reflexivity.
    + reflexivity.
    + exists st1, wd1, st2. repeat split; try assumption.
      apply Hflag. reflexivity.
Defined.

(** The scenario of the spec, run. *)
Example scenario_component :
  let unbound := Component.active SampleComponent.refreshWidget true SampleComponent.state in
  let bound := (Component.bind SampleComponent.refreshWidget 3%nat SampleComponent.state).2 in
  let after := Component.active SampleComponent.refreshWidget true bound in
  unbound.1 = Throw (JsError "The window is gone.")
  ∧ after.1 = Ok tt
  ∧ Component.widget_at (3%nat, "spinner") after.2 = Some (Component.mkWidget false "spinner")
  ∧ Component.widget_at (3%nat, "other") after.2 = Some (Component.mkWidget true "").
Proof. vm_compute. done. Qed.

(** ** The loops as a whole *)

Lemma add_subs_nil (x : option ObservableState) : add_subs [] <$> x = x.
Proof. destruct x as [[v subs]|]; [|done]. unfold add_subs. simpl. by rewrite app_nil_r. Qed.

Lemma add_subs_app l1 l2 (x : option ObservableState) :
  add_subs l2 <$> (add_subs l1 <$> x) = add_subs (l1 ++ l2) <$> x.
Proof.
  destruct x as [[v subs]|]; [|done]. unfold add_subs. simpl. by rewrite app_assoc.
Qed.

Lemma bound_same_heap ctx vm bs K w evs :
  (∀ r, subscription ctx vm bs r K = []) ->
  binding_events ctx vm bs (heap w) K = evs ->
  bound ctx vm bs K w (mkWorld (heap w) (trace w ++ evs)).
Proof.
  intros Hs He. split; simpl; [|by rewrite He].
  intros r. by rewrite Hs, add_subs_nil.
Qed.

Lemma bound_subscribed ctx vm bs K w r o F evs :
  property vm K = VObservable r ->
  descriptor bs K ≫= bind_target = Some F ->
  heap w !! r = Some o ->
  binding_events ctx vm bs (heap w) K = evs ->
  bound ctx vm bs K w (mkWorld (subscribed r o (CbSetField ctx F) (heap w)) (trace w ++ evs)).
Proof.
  intros P D Ho He. split; simpl; [|by rewrite He].
  intros r'. unfold subscription, subscribed. rewrite P, D.
  destruct (decide (r = r')) as [<-|Hne].
  - by rewrite lookup_insert_eq, Ho.
  - rewrite lookup_insert_ne by done. by rewrite add_subs_nil.
Qed.

(** One applyBinding call, exactly. *)
Lemma applyBinding_bound ctx vm bs K w :
  resolved vm w -> K ∈ keys bs ->
  ∃ w', applyBinding ctx vm bs K w = (Ok (resolves K vm), w') ∧ bound ctx vm bs K w w'.
Proof.
  intros R HK. unfold resolves. destruct (property vm K) as [| | | | | |r|] eqn:P;
    try (eexists; split;
         [ rewrite applyBinding_not_observable by (rewrite P; done); by rewrite P
         | apply bound_same_heap;
           [ intros r0; unfold subscription; by rewrite P
           | unfold binding_events; by rewrite P ] ]).
  - exists w. split; [by apply applyBinding_absent|].
    destruct w as [h t]. replace t with (t ++ []) at 2 by apply app_nil_r.
    apply (bound_same_heap ctx vm bs K (mkWorld h t)).
    + intros r0. unfold subscription. by rewrite P.
    + unfold binding_events. by rewrite P.
  - apply property_observable in P as Hvm.
    destruct (R K r Hvm) as [o Ho].
    assert (Hval : value_at (heap w) r = obs_value o) by (unfold value_at; by rewrite Ho).
    destruct (descriptor_keys bs K HK) as [[F|props] Hd].
    + eexists. split; [by eapply applyBinding_toTarget|].
      apply bound_subscribed; try done; [by rewrite Hd|].
      unfold binding_events. by rewrite P, Hd, Hval.
    + destruct (props !! "update") as [U|] eqn:HU.
      * destruct (props !! "bind") as [F|] eqn:HF.
        -- eexists. split; [by eapply applyBinding_twoWay|].
           apply bound_subscribed; try done; [rewrite Hd; simpl; by rewrite HU|].
           unfold binding_events. by rewrite P, Hd, HU, HF, Hval.
        -- eexists. split; [by eapply applyBinding_toSource|].
           apply bound_same_heap.
           ++ intros r0. unfold subscription. rewrite P, Hd. simpl. by rewrite HU, HF.
           ++ unfold binding_events. by rewrite P, Hd, HU, HF.
      * exists w. split; [by eapply applyBinding_noUpdate|].
        destruct w as [h t]. replace t with (t ++ []) at 2 by apply app_nil_r.
        apply (bound_same_heap ctx vm bs K (mkWorld h t)).
        ++ intros r0. unfold subscription. rewrite P, Hd. simpl. by rewrite HU.
        ++ unfold binding_events. by rewrite P, Hd, HU.
Qed.

Lemma accumulated_refl w : accumulated (fun _ => []) [] w w.
Proof. split; [intros r; by rewrite add_subs_nil|by rewrite app_nil_r]. Qed.

Lemma accumulated_trans s1 e1 s2 e2 w w1 w2 :
  accumulated s1 e1 w w1 -> accumulated s2 e2 w1 w2 ->
  accumulated (fun r => s1 r ++ s2 r) (e1 ++ e2) w w2.
Proof.
  intros [H1 T1] [H2 T2]. split.
  - intros r. by rewrite H2, H1, add_subs_app.
  - by rewrite T2, T1, app_assoc.
Qed.

Lemma accumulated_emit s e w w' evs :
  accumulated s e w w' ->
  accumulated s (e ++ evs) w (mkWorld (heap w') (trace w' ++ evs)).
Proof. intros [H T]. split; simpl; [done|]. by rewrite T, app_assoc. Qed.

Lemma accumulated_values s e w w' r :
  accumulated s e w w' -> value_at (heap w') r = value_at (heap w) r.
Proof.
  intros [H _]. unfold value_at. rewrite H. by destruct (heap w !! r).
Qed.

Lemma accumulated_resolved s e vm w w' :
  accumulated s e w w' -> resolved vm w -> resolved vm w'.
Proof.
  intros [H _] R k r Hk. destruct (R k r Hk) as [o Ho]. rewrite H, Ho. by eexists.
Qed.

Lemma accumulated_ext s s' e e' w w' :
  (∀ r, s r = s' r) -> e = e' -> accumulated s e w w' -> accumulated s' e' w w'.
Proof. intros Hs <- [H T]. split; [|done]. intros r. by rewrite <- Hs. Qed.

Lemma binding_events_values ctx vm bs h h' K :
  (∀ r, value_at h' r = value_at h r) ->
  binding_events ctx vm bs h' K = binding_events ctx vm bs h K.
Proof.
  intros Hv. unfold binding_events.
  destruct (property vm K); try done.
  destruct (descriptor bs K) as [[F|props]|]; try done; [by rewrite Hv|].
  destruct (props !! "update"); [|done]. destruct (props !! "bind"); [|done].
  by rewrite Hv.
Qed.

Lemma apply_key_exact ctx vm bs K w :
  resolved vm w -> K ∈ keys bs ->
  ∃ w', Binder.apply_key ctx vm bs K w = (Ok tt, w')
        ∧ accumulated (fun r => subscription ctx vm bs r K)
                      (apply_events ctx vm bs (heap w) K) w w'.
Proof.
  intros R HK. destruct (applyBinding_bound ctx vm bs K w R HK) as (w1 & E & B).
  eexists. split; [by eapply apply_key_unfold|]. unfold apply_events.
  destruct (resolves K vm).
  - rewrite app_nil_r. exact B.
  - by apply accumulated_emit.
Qed.

Lemma apply_keys_exact ctx vm bs ks w :
  resolved vm w -> (∀ k, k ∈ ks -> k ∈ keys bs) ->
  ∃ w', for_of ks (Binder.apply_key ctx vm bs) w = (Ok tt, w')
        ∧ accumulated (fun r => flat_map (subscription ctx vm bs r) ks)
                      (flat_map (apply_events ctx vm bs (heap w)) ks) w w'.
Proof.
  revert w. induction ks as [|k ks IH]; intros w R Hks.
  - exists w. split; [done|apply accumulated_refl].
  - destruct (apply_key_exact ctx vm bs k w R) as (w1 & E1 & A1).
    { apply Hks. by left. }
    destruct (IH w1) as (w' & E' & A').
    { by eapply accumulated_resolved. }
    { intros k' Hk'. apply Hks. by right. }
    exists w'. split.
    + rewrite for_of_cons. by erewrite bindM_ok by exact E1.
    + simpl. eapply accumulated_ext; [| |eapply accumulated_trans; [exact A1|exact A']].
      * done.
      * f_equal. apply flat_map_ext. intros K. unfold apply_events. f_equal.
        apply binding_events_values. intros r. by eapply accumulated_values.
Qed.

Lemma applyAll_vms_exact ctx vms bs K s w :
  Forall (fun vm => resolved vm w) vms -> K ∈ keys bs ->
  ∃ w', Binder.applyAll_vms ctx vms bs K s w = (Ok (existsb (resolves K) vms || s), w')
        ∧ accumulated (fun r => flat_map (fun vm => subscription ctx vm bs r K) vms)
                      (flat_map (fun vm => binding_events ctx vm bs (heap w) K) vms) w w'.
Proof.
  revert s w. induction vms as [|vm vms IH]; intros s w R HK.
  - exists w. split; [done|apply accumulated_refl].
  - apply Forall_cons in R as [Rvm Rvms].
    destruct (applyBinding_bound ctx vm bs K w Rvm HK) as (w1 & E1 & B1).
    destruct (IH (resolves K vm || s) w1) as (w' & E' & A'); [|done|].
    { eapply Forall_impl; [exact Rvms|]. intros vm0.
      apply (accumulated_resolved _ _ vm0 w w1 B1). }
    exists w'. split.
    + simpl. erewrite bindM_ok by exact E1. rewrite E'.
      do 2 f_equal. by destruct (resolves K vm), (existsb (resolves K) vms), s.
    + simpl. eapply accumulated_ext; [| |eapply accumulated_trans; [exact B1|exact A']].
      * done.
      * f_equal. apply flat_map_ext. intros vm0.
        apply binding_events_values. intros r.
        apply (accumulated_values _ _ w w1 r B1).
Qed.

Lemma applyAll_key_exact ctx vms bs K w :
  Forall (fun vm => resolved vm w) vms -> K ∈ keys bs ->
  ∃ w', Binder.applyAll_key ctx vms bs K w = (Ok tt, w')
        ∧ accumulated (fun r => flat_map (fun vm => subscription ctx vm bs r K) vms)
                      (applyAll_events ctx vms bs (heap w) K) w w'.
Proof.
  intros R HK. destruct (applyAll_vms_exact ctx vms bs K false w R HK) as (w1 & E & A).
  rewrite orb_false_r in E. unfold Binder.applyAll_key, applyAll_events.
  erewrite bindM_ok by exact E. destruct (existsb (resolves K) vms); simpl.
  - exists w1. split; [done|]. by rewrite app_nil_r.
  - eexists. split; [reflexivity|]. by apply accumulated_emit.
Qed.

Lemma applyAll_keys_exact ctx vms bs ks w :
  Forall (fun vm => resolved vm w) vms -> (∀ k, k ∈ ks -> k ∈ keys bs) ->
  ∃ w', for_of ks (Binder.applyAll_key ctx vms bs) w = (Ok tt, w')
        ∧ accumulated
            (fun r => flat_map (fun K => flat_map (fun vm => subscription ctx vm bs r K) vms) ks)
            (flat_map (applyAll_events ctx vms bs (heap w)) ks) w w'.
Proof.
  revert w. induction ks as [|k ks IH]; intros w R Hks.
  - exists w. split; [done|apply accumulated_refl].
  - destruct (applyAll_key_exact ctx vms bs k w R) as (w1 & E1 & A1).
    { apply Hks. by left. }
    destruct (IH w1) as (w' & E' & A').
    { eapply Forall_impl; [exact R|]. intros vm0. by eapply accumulated_resolved. }
    { intros k' Hk'. apply Hks. by right. }
    exists w'. split.
    + rewrite for_of_cons. by erewrite bindM_ok by exact E1.
    + simpl. eapply accumulated_ext; [| |eapply accumulated_trans; [exact A1|exact A']].
      * done.
      * f_equal. apply flat_map_ext. intros K. unfold applyAll_events. f_equal.
        apply flat_map_ext. intros vm0.
        apply binding_events_values. intros r. by eapply accumulated_values.
Qed.

Lemma apply_exact ctx vm bs w :
  resolved vm w ->
  ∃ w', Binder.apply ctx vm bs w = (Ok tt, w')
        ∧ accumulated (apply_subscriptions ctx vm bs)
                      (flat_map (apply_events ctx vm bs (heap w)) (keys bs)) w w'.
Proof. intros R. by apply apply_keys_exact. Qed.

Lemma applyAll_exact ctx vms bs w :
  Forall (fun vm => resolved vm w) vms ->
  ∃ w', Binder.applyAll ctx vms bs w = (Ok tt, w')
        ∧ accumulated (applyAll_subscriptions ctx vms bs)
                      (flat_map (applyAll_events ctx vms bs (heap w)) (keys bs)) w w'.
Proof. intros R. by apply applyAll_keys_exact. Qed.

Lemma new_events_accumulated {A} (m : M World A) s e w a w' :
  m w = (a, w') -> accumulated s e w w' -> new_events m w = e.
Proof.
  intros E [_ T]. unfold new_events. rewrite E. simpl. by rewrite T, drop_app_length.
Qed.

Lemma binding_events_quiet ctx vm bs h K :
  Forall (fun e => is_warning e = false) (binding_events ctx vm bs h K).
Proof.
  unfold binding_events. destruct (property vm K); try by repeat constructor.
  destruct (descriptor bs K) as [[F|props]|]; try by repeat constructor.
  destruct (props !! "update"); [|by constructor].
  destruct (props !! "bind"); by repeat constructor.
Qed.

(** X1.  On a world that holds the viewmodel's observables, [Binder.apply]
    returns, and it has done to the observables just this: each one has, after
    the subscribers it had, one [value => context.setField(F, value)] for
    every key that names it and whose descriptor has a bind target [F], in the
    order of the keys.  No value has changed, and no observable has come or
    gone. *)
Theorem apply_appends_subscribers_in_key_order ctx vm bs w :
  resolved vm w ->
  ∃ w', Binder.apply ctx vm bs w = (Ok tt, w')
        ∧ ∀ r, heap w' !! r = add_subs (apply_subscriptions ctx vm bs r) <$> heap w !! r.
Proof.
  intros R. destruct (apply_exact ctx vm bs w R) as (w' & E & H & _). by exists w'.
Qed.

Lemma apply_appends_subscribers_in_key_order_witness :
  ∃ w', Binder.apply 7 Sample.viewmodel
          [("count", BString "label"); ("speed", Sample.toSource); ("count", Sample.twoWay)]
          Sample.world = (Ok tt, w')
        ∧ ∀ r, heap w' !! r
               = add_subs (apply_subscriptions 7 Sample.viewmodel
                             [("count", BString "label"); ("speed", Sample.toSource);
                              ("count", Sample.twoWay)] r)
                 <$> heap Sample.world !! r.
Proof.
  apply (apply_appends_subscribers_in_key_order 7 Sample.viewmodel
           [("count", BString "label"); ("speed", Sample.toSource); ("count", Sample.twoWay)]
           Sample.world).
  apply resolvedb_sound. vm_compute. reflexivity.
Defined.

Lemma warnings_of_turns (events : string -> list Event) (silent : string -> bool)
    (wording : string -> string) ks :
  (∀ K, filter (fun e => is_warning e = true) (events K)
        = if silent K then [] else [Warning (wording K)]) ->
  filter (fun e => is_warning e = true) (flat_map events ks)
  = map (fun K => Warning (wording K)) (filter (fun K => silent K = false) ks).
Proof.
  intros H. induction ks as [|K ks IH]; [done|].
  simpl. rewrite filter_app, H, IH. destruct (silent K) eqn:S.
  - by rewrite filter_cons_False by (by rewrite S).
  - by rewrite filter_cons_True by done.
Qed.

(** X2.  The warnings of [Binder.apply] are one for each key whose viewmodel
    property is not an Observable, in the order of the keys, and no other. *)
Theorem apply_warns_once_per_unresolved_key ctx vm bs w :
  resolved vm w ->
  filter (fun e => is_warning e = true) (new_events (Binder.apply ctx vm bs) w)
  = map (fun K => Warning (warning_apply K))
        (filter (fun K => resolves K vm = false) (keys bs)).
Proof.
  intros R. destruct (apply_exact ctx vm bs w R) as (w' & E & A).
  rewrite (new_events_accumulated _ _ _ _ _ _ E A).
  apply warnings_of_turns. intros K. unfold apply_events. rewrite filter_app.
  rewrite filter_no_warning by apply binding_events_quiet.
  by destruct (resolves K vm).
Qed.

Lemma apply_warns_once_per_unresolved_key_witness :
  filter (fun e => is_warning e = true)
    (new_events (Binder.apply 7 Sample.viewmodel
                   [("ghost", BString "nowhere"); ("count", BString "label");
                    ("title", BString "caption")]) Sample.world)
  = map (fun K => Warning (warning_apply K))
        (filter (fun K => resolves K Sample.viewmodel = false)
           (keys [("ghost", BString "nowhere"); ("count", BString "label");
                  ("title", BString "caption")])).
Proof.
  apply (apply_warns_once_per_unresolved_key 7 Sample.viewmodel
           [("ghost", BString "nowhere"); ("count", BString "label");
            ("title", BString "caption")] Sample.world).
  apply resolvedb_sound. vm_compute. reflexivity.
Defined.

(** X3.  Every [setField] call that [Binder.apply] makes is on the context it
    was given and is for a key of the bindings that names an observable of the
    viewmodel: it either pushes, to the bind target of that key, the value
    that observable held when [apply] was called, or registers, on the
    [update] field of that key, the handler that sets that observable. *)
Theorem apply_pushes_only_current_values_and_handlers ctx vm bs w c F v :
  resolved vm w ->
  SetField c F v ∈ new_events (Binder.apply ctx vm bs) w ->
  c = ctx
  ∧ ∃ K r, K ∈ keys bs
           ∧ vm !! K = Some (VObservable r)
           ∧ ((descriptor bs K ≫= bind_target = Some F
               ∧ ∃ o, heap w !! r = Some o ∧ v = obs_value o)
              ∨ (∃ props, descriptor bs K = Some (BObject props)
                          ∧ props !! "update" = Some F ∧ v = VSetter r)).
Proof.
  intros R Hin. destruct (apply_exact ctx vm bs w R) as (w' & E & A).
  rewrite (new_events_accumulated _ _ _ _ _ _ E A) in Hin.
  apply list_elem_of_In, in_flat_map in Hin as (K & HK & Hin).
  apply list_elem_of_In in HK, Hin.
  unfold apply_events in Hin. apply elem_of_app in Hin as [Hin|Hin].
  2:{ destruct (resolves K vm); [by apply elem_of_nil in Hin|].
      apply list_elem_of_singleton in Hin. discriminate Hin. }
  unfold binding_events in Hin.
  destruct (property vm K) as [| | | | | |r|] eqn:P;
    try (apply list_elem_of_singleton in Hin; discriminate Hin);
    try (by apply elem_of_nil in Hin).
  apply property_observable in P as Hvm. destruct (R K r Hvm) as [o Ho].
  assert (Hval : value_at (heap w) r = obs_value o) by (unfold value_at; by rewrite Ho).
  rewrite Hval in Hin.
  destruct (descriptor bs K) as [[F0|props]|] eqn:Hd; [| |by apply elem_of_nil in Hin].
  - apply elem_of_cons in Hin as [Hin|Hin].
    + injection Hin as -> -> ->. split; [done|]. exists K, r. split_and!; try done.
      left. split; [by rewrite Hd|]. by exists o.
    + apply list_elem_of_singleton in Hin. discriminate Hin.
  - destruct (props !! "update") as [U|] eqn:HU; [|by apply elem_of_nil in Hin].
    apply elem_of_cons in Hin as [Hin|Hin].
    + injection Hin as -> -> ->. split; [done|]. exists K, r. split_and!; try done.
      right. by exists props.
    + destruct (props !! "bind") as [F0|] eqn:HF.
      * apply elem_of_cons in Hin as [Hin|Hin].
        -- injection Hin as -> -> ->. split; [done|]. exists K, r. split_and!; try done.
           left. split; [rewrite Hd; simpl; by rewrite HU|]. by exists o.
        -- apply list_elem_of_singleton in Hin. discriminate Hin.
      * apply list_elem_of_singleton in Hin. discriminate Hin.
Qed.

Lemma apply_pushes_only_current_values_and_handlers_witness :
  7%nat = 7%nat
  ∧ ∃ K r, K ∈ keys Sample.bindings
           ∧ Sample.viewmodel !! K = Some (VObservable r)
           ∧ ((descriptor Sample.bindings K ≫= bind_target = Some "onSpin"
               ∧ ∃ o, heap Sample.world !! r = Some o ∧ VSetter 1%nat = obs_value o)
              ∨ (∃ props, descriptor Sample.bindings K = Some (BObject props)
                          ∧ props !! "update" = Some "onSpin"
                          ∧ VSetter 1%nat = VSetter r)).
Proof.
  apply (apply_pushes_only_current_values_and_handlers 7 Sample.viewmodel
           Sample.bindings Sample.world 7%nat "onSpin" (VSetter 1%nat)).
  - apply resolvedb_sound. vm_compute. reflexivity.
  - vm_compute. do 3 right. left.
Defined.

Lemma for_of_ext {S A} (l : list A) (f g : A -> M S unit) s :
  (∀ x s', x ∈ l -> f x s' = g x s') -> for_of l f s = for_of l g s.
Proof.
  revert s. induction l as [|x l IH]; intros s H; [done|].
  simpl. unfold bindM. rewrite (H x s) by by left.
  destruct (g x s) as [[[]|e] s1]; [|done]. apply IH.
  intros y s' Hy. apply H. by right.
Qed.

(** ** applyAll as a whole *)

(** X5.  With no viewmodel at all, [Binder.applyAll] returns, touches no
    observable and makes no [setField] call: all it does is warn once for
    every key, in the order of the keys. *)
Theorem applyAll_without_viewmodels_only_warns ctx bs w :
  Binder.applyAll ctx [] bs w
  = (Ok tt, mkWorld (heap w)
                    (trace w ++ map (fun K => Warning (warning_applyAll K)) (keys bs))).
Proof.
  unfold Binder.applyAll. generalize (keys bs) as ks. intros ks. revert w.
  induction ks as [|K ks IH]; intros [h t]; simpl.
  - by rewrite app_nil_r.
  - unfold bindM at 1. simpl. rewrite IH. simpl. by rewrite <- app_assoc.
Qed.

(** X6.  The warnings of [Binder.applyAll] are one for each key that none of
    the viewmodels resolves, in the order of the keys, and no other. *)
Theorem applyAll_warns_once_per_unresolved_key ctx vms bs w :
  Forall (fun vm => resolved vm w) vms ->
  filter (fun e => is_warning e = true) (new_events (Binder.applyAll ctx vms bs) w)
  = map (fun K => Warning (warning_applyAll K))
        (filter (fun K => existsb (resolves K) vms = false) (keys bs)).
Proof.
  intros R. destruct (applyAll_exact ctx vms bs w R) as (w' & E & A).
  rewrite (new_events_accumulated _ _ _ _ _ _ E A).
  apply (warnings_of_turns _ (fun K => existsb (resolves K) vms)).
  intros K. unfold applyAll_events. rewrite filter_app.
  rewrite filter_no_warning.
  - by destruct (existsb (resolves K) vms).
  - clear. induction vms as [|vm vms IH]; [constructor|]. simpl. apply Forall_app.
    split; [apply binding_events_quiet|apply IH].
Qed.

Lemma applyAll_warns_once_per_unresolved_key_witness :
  filter (fun e => is_warning e = true)
    (new_events (Binder.applyAll 7 [{[ "title" := VStr "other" ]}; Sample.viewmodel]
                   [("ghost", BString "nowhere"); ("count", BString "label");
                    ("title", BString "caption")]) Sample.world)
  = map (fun K => Warning (warning_applyAll K))
        (filter (fun K => existsb (resolves K)
                            [{[ "title" := VStr "other" ]}; Sample.viewmodel] = false)
           (keys [("ghost", BString "nowhere"); ("count", BString "label");
                  ("title", BString "caption")])).
Proof.
  apply (applyAll_warns_once_per_unresolved_key 7
           [{[ "title" := VStr "other" ]}; Sample.viewmodel]
           [("ghost", BString "nowhere"); ("count", BString "label");
            ("title", BString "caption")] Sample.world).
  repeat constructor; apply resolvedb_sound; vm_compute; reflexivity.
Defined.

(** X7.  On a world that holds the viewmodels' observables, [Binder.applyAll]
    returns, and it has done to the observables just this: each one has, after
    the subscribers it had, one [value => context.setField(F, value)] for
    every key with a bind target [F] and every viewmodel in which that key
    names it, key by key and, within a key, in the order of the viewmodels.
    No value has changed, and no observable has come or gone. *)
Theorem applyAll_appends_subscribers_key_by_key ctx vms bs w :
  Forall (fun vm => resolved vm w) vms ->
  ∃ w', Binder.applyAll ctx vms bs w = (Ok tt, w')
        ∧ ∀ r, heap w' !! r = add_subs (applyAll_subscriptions ctx vms bs r) <$> heap w !! r.
Proof.
  intros R. destruct (applyAll_exact ctx vms bs w R) as (w' & E & H & _). by exists w'.
Qed.

Lemma applyAll_appends_subscribers_key_by_key_witness :
  ∃ w', Binder.applyAll 7 [Sample.viewmodel; {[ "dial" := VObservable 0%nat ]}]
          [("count", BString "label"); ("dial", Sample.twoWay)] Sample.world = (Ok tt, w')
        ∧ ∀ r, heap w' !! r
               = add_subs (applyAll_subscriptions 7
                             [Sample.viewmodel; {[ "dial" := VObservable 0%nat ]}]
                             [("count", BString "label"); ("dial", Sample.twoWay)] r)
                 <$> heap Sample.world !! r.
Proof.
  apply (applyAll_appends_subscribers_key_by_key 7
           [Sample.viewmodel; {[ "dial" := VObservable 0%nat ]}]
           [("count", BString "label"); ("dial", Sample.twoWay)] Sample.world).
  repeat constructor; apply resolvedb_sound; vm_compute; reflexivity.
Defined.

Lemma Forall2_same_but_wording_refl evs : Forall2 same_but_wording evs evs.
Proof. induction evs; constructor; [by left|done]. Qed.

(** X8.  [Binder.applyAll] on a single viewmodel does what [Binder.apply]
    does on it: both return, they leave the same observables, and they make
    the same calls in the same order, but for the wording of the warnings. *)
Theorem applyAll_of_one_viewmodel_is_apply ctx vm bs w :
  resolved vm w ->
  ∃ wa wb,
    Binder.applyAll ctx [vm] bs w = (Ok tt, wa)
    ∧ Binder.apply ctx vm bs w = (Ok tt, wb)
    ∧ heap wa = heap wb
    ∧ Forall2 same_but_wording (new_events (Binder.applyAll ctx [vm] bs) w)
                               (new_events (Binder.apply ctx vm bs) w).
Proof.
  intros R.
  destruct (applyAll_exact ctx [vm] bs w) as (wa & Ea & Aa); [by repeat constructor|].
  destruct (apply_exact ctx vm bs w R) as (wb & Eb & Ab).
  exists wa, wb. split_and!; try done.
  - apply map_eq. intros r. rewrite (proj1 Aa), (proj1 Ab). f_equal. f_equal.
    unfold applyAll_subscriptions, apply_subscriptions. apply flat_map_ext.
    intros K. simpl. apply app_nil_r.
  - rewrite (new_events_accumulated _ _ _ _ _ _ Ea Aa),
            (new_events_accumulated _ _ _ _ _ _ Eb Ab).
    clear. induction (keys bs) as [|K ks IH]; [constructor|]. simpl.
    apply Forall2_app; [|exact IH].
    unfold applyAll_events, apply_events. simpl. rewrite app_nil_r, orb_false_r.
    apply Forall2_app; [apply Forall2_same_but_wording_refl|].
    destruct (resolves K vm); constructor; [|constructor]. right. by exists K.
Qed.

Lemma applyAll_of_one_viewmodel_is_apply_witness :
  ∃ wa wb,
    Binder.applyAll 7 [Sample.viewmodel] Sample.bindings Sample.world = (Ok tt, wa)
    ∧ Binder.apply 7 Sample.viewmodel Sample.bindings Sample.world = (Ok tt, wb)
    ∧ heap wa = heap wb
    ∧ Forall2 same_but_wording
        (new_events (Binder.applyAll 7 [Sample.viewmodel] Sample.bindings) Sample.world)
        (new_events (Binder.apply 7 Sample.viewmodel Sample.bindings) Sample.world).
Proof.
  apply (applyAll_of_one_viewmodel_is_apply 7 Sample.viewmodel Sample.bindings Sample.world).
  apply resolvedb_sound. vm_compute. reflexivity.
Defined.

(** X9.  Nothing is undone or recognised when [Binder.apply] is called again
    with the same arguments: it returns both times, the second call makes the
    very calls of the first (the same values pushed, the same handlers
    registered, the same log lines), and every observable ends with the
    subscribers of one call twice over, so that a later [set] pushes twice. *)
Theorem apply_again_subscribes_again ctx vm bs w :
  resolved vm w ->
  ∃ w1 w2,
    Binder.apply ctx vm bs w = (Ok tt, w1)
    ∧ Binder.apply ctx vm bs w1 = (Ok tt, w2)
    ∧ new_events (Binder.apply ctx vm bs) w1 = new_events (Binder.apply ctx vm bs) w
    ∧ ∀ r, heap w2 !! r
           = add_subs (apply_subscriptions ctx vm bs r ++ apply_subscriptions ctx vm bs r)
             <$> heap w !! r.
Proof.
  intros R. destruct (apply_exact ctx vm bs w R) as (w1 & E1 & A1).
  assert (R1 : resolved vm w1) by by eapply accumulated_resolved.
  destruct (apply_exact ctx vm bs w1 R1) as (w2 & E2 & A2).
  exists w1, w2. split_and!; try done.
  - rewrite (new_events_accumulated _ _ _ _ _ _ E1 A1),
            (new_events_accumulated _ _ _ _ _ _ E2 A2).
    apply flat_map_ext. intros K. unfold apply_events. f_equal.
    apply binding_events_values. intros r. by eapply accumulated_values.
  - intros r. by rewrite (proj1 A2), (proj1 A1), add_subs_app.
Qed.

Lemma apply_again_subscribes_again_witness :
  ∃ w1 w2,
    Binder.apply 7 Sample.viewmodel Sample.bindings Sample.world = (Ok tt, w1)
    ∧ Binder.apply 7 Sample.viewmodel Sample.bindings w1 = (Ok tt, w2)
    ∧ new_events (Binder.apply 7 Sample.viewmodel Sample.bindings) w1
      = new_events (Binder.apply 7 Sample.viewmodel Sample.bindings) Sample.world
    ∧ ∀ r, heap w2 !! r
           = add_subs (apply_subscriptions 7 Sample.viewmodel Sample.bindings r
                       ++ apply_subscriptions 7 Sample.viewmodel Sample.bindings r)
             <$> heap Sample.world !! r.
Proof.
  apply (apply_again_subscribes_again 7 Sample.viewmodel Sample.bindings Sample.world).
  apply resolvedb_sound. vm_compute. reflexivity.
Defined.

(** Run: after two calls, one [set] pushes twice. *)
Example set_after_two_applies :
  let w2 := (Binder.apply 7 Sample.viewmodel Sample.bindings
               (Binder.apply 7 Sample.viewmodel Sample.bindings Sample.world).2).2 in
  new_events (Observable.set 0%nat (VNum 3)) w2
  = [SetField 7 "label" (VNum 3); SetField 7 "label" (VNum 3)].
Proof. vm_compute. reflexivity. Qed.

(** ** The component and the other widgets *)

Section ComponentFrame.
Context {Look : Type}.
Variable refreshWidget : Component.Fields -> M (Component.Widget Look) unit.

Lemma on_widget_this {A} (h : Component.Handle) (m : M (Component.Widget Look) A)
    (st : Component.State Look) :
  Component.this (Component.on_widget h m st).2 = Component.this st.
Proof.
  unfold Component.on_widget. destruct (Component.windows st !! h.1) as [widgets|]; [|done].
  destruct (widgets !! h.2) as [wd|]; [|done]. by destruct (m wd).
Qed.

Lemma on_widget_frame {A} (h h' : Component.Handle) (m : M (Component.Widget Look) A)
    (st : Component.State Look) :
  h' ≠ h ->
  Component.widget_at h' (Component.on_widget h m st).2 = Component.widget_at h' st.
Proof.
  intros Hne. unfold Component.on_widget, Component.widget_at.
  destruct (Component.windows st !! h.1) as [widgets|] eqn:Hw; [|done].
  destruct (widgets !! h.2) as [wd|] eqn:Hwd; [|done].
  destruct (m wd) as [res wd']. simpl.
  destruct (decide (h.1 = h'.1)) as [E1|N1].
  - rewrite <- E1, lookup_insert_eq, Hw. simpl.
    apply lookup_insert_ne. intros E2. apply Hne.
    destruct h, h'. simpl in *. congruence.
  - by rewrite lookup_insert_ne.
Qed.

Lemma getWidget_handle (st : Component.State Look) :
  (Component.getWidget st).2 = st
  ∧ ∀ h, (Component.getWidget st).1 = Ok h ->
         ∃ host, Component._window (Component.this st) = Some host
                 ∧ h = (host, Component.name (Component._description (Component.this st))).
Proof.
  unfold Component.getWidget, Component.findWidget.
  destruct (Component._window (Component.this st)) as [host|]; [|by split].
  destruct (Component.windows st !! host) as [widgets|]; [|by split].
  destruct (widgets !! _); [|by split].
  split; [done|]. intros h [= <-]. by exists host.
Qed.

End ComponentFrame.

Section ComponentToggle.
Context {Look : Type}.
Variable refreshWidget : Component.Fields -> M (Component.Widget Look) unit.

(** [active] on a bound component whose window has its widget, exactly. *)
Lemma active_bound (toggle : bool) (st : Component.State Look) host widgets wd :
  Component._window (Component.this st) = Some host ->
  Component.windows st !! host = Some widgets ->
  widgets !! Component.name (Component._description (Component.this st)) = Some wd ->
  let off := Component.mkWidget (negb toggle) (Component.look wd) in
  Component.active refreshWidget toggle st
  = ((refreshWidget (Component.this st) off).1,
     Component.mkState (Component.this st)
       (<[host := <[Component.name (Component._description (Component.this st))
                    := (refreshWidget (Component.this st) off).2]> widgets]>
          (Component.windows st))).
Proof.
  intros Hwin Hw Hwd off.
  set (nm := Component.name (Component._description (Component.this st))) in *.
  unfold Component.active.
  erewrite bindM_ok by (by apply (getWidget_bound st host widgets wd)).
  unfold bindM. fold nm.
  rewrite (on_widget_spec (host, nm) _ st widgets wd) by done.
  cbn [modify fst snd]. fold off.
  rewrite (on_widget_spec (host, nm) _ _ (<[nm := off]> widgets) off);
    [|apply lookup_insert_eq|apply lookup_insert_eq].
  cbn [fst snd Component.this Component.windows].
  by rewrite !insert_insert_eq.
Qed.

(** X12.  On a bound component whose window has its widget, and with a
    refreshWidget that returns and leaves [isDisabled] alone, the last call of
    [active] decides: after [active(a)] then [active(b)], both of which
    return, the widget's [isDisabled] is the negation of [b], whatever [a]
    was and whatever the flag was before. *)
Theorem last_active_call_decides (a b : bool) (st : Component.State Look)
    host widgets wd :
  Component._window (Component.this st) = Some host ->
  Component.windows st !! host = Some widgets ->
  widgets !! Component.name (Component._description (Component.this st)) = Some wd ->
  (∀ c x, (refreshWidget c x).1 = Ok tt) ->
  (∀ c x, Component.isDisabled (refreshWidget c x).2 = Component.isDisabled x) ->
  ∃ st1 st2,
    Component.active refreshWidget a st = (Ok tt, st1)
    ∧ Component.active refreshWidget b st1 = (Ok tt, st2)
    ∧ Component.isDisabled
        <$> Component.widget_at
              (host, Component.name (Component._description (Component.this st))) st2
      = Some (negb b).
Proof.
  intros Hwin Hw Hwd Hret Hkeep.
  set (nm := Component.name (Component._description (Component.this st))) in *.
  pose proof (active_bound a st host widgets wd Hwin Hw Hwd) as E1. cbn zeta in E1.
  fold nm in E1. rewrite Hret in E1.
  eexists. eexists. split; [exact E1|].
  match type of E1 with _ = (_, ?s) => set (st1 := s) in * end.
  pose proof (active_bound b st1 host _ _ Hwin (lookup_insert_eq _ _ _)
                (lookup_insert_eq _ _ _)) as E2.
  cbn zeta in E2. rewrite Hret in E2. split; [exact E2|].
  unfold Component.widget_at. cbn [fst snd Component.windows Component.this].
  rewrite lookup_insert_eq. cbn. fold nm. rewrite lookup_insert_eq. cbn.
  by rewrite Hkeep.
Qed.
End ComponentToggle.

Lemma last_active_call_decides_witness :
  ∃ st1 st2,
    Component.active SampleComponent.refreshWidget false
      (Component.bind SampleComponent.refreshWidget 3%nat SampleComponent.state).2
    = (Ok tt, st1)
    ∧ Component.active SampleComponent.refreshWidget true st1 = (Ok tt, st2)
    ∧ Component.isDisabled
        <$> Component.widget_at
              (3%nat,
               Component.name
                 (Component._description
                    (Component.this
                       (Component.bind SampleComponent.refreshWidget 3%nat
                          SampleComponent.state).2))) st2
      = Some (negb true).
Proof.
  apply (last_active_call_decides SampleComponent.refreshWidget false true
           (Component.bind SampleComponent.refreshWidget 3%nat SampleComponent.state).2
           3%nat
           {[ "spinner" := Component.mkWidget true "spinner";
              "other" := Component.mkWidget true "" ]}
           (Component.mkWidget true "spinner")).
  - reflexivity.
  - vm_compute. reflexivity.
  - reflexivity.
  - reflexivity.
  - reflexivity.
Defined.

(** ** What apply reads *)

(** X13.  [Binder.apply] reads of the viewmodel only the properties that the
    keys of the bindings name: on two viewmodels that agree on those
    properties it has the same outcome and leaves the same world, whatever
    else the viewmodels hold. *)
Theorem apply_reads_only_named_properties ctx (vm vm' : ViewModel) bs w :
  (∀ K, K ∈ keys bs -> vm !! K = vm' !! K) ->
  Binder.apply ctx vm bs w = Binder.apply ctx vm' bs w.
Proof.
  intros Hsame. unfold Binder.apply. apply for_of_ext. intros K s' HK.
  unfold Binder.apply_key, applyBinding, property. by rewrite (Hsame K HK).
Qed.

Lemma apply_reads_only_named_properties_witness :
  Binder.apply 7 Sample.viewmodel [("count", Sample.twoWay); ("ghost", BString "nowhere")]
    Sample.world
  = Binder.apply 7 {[ "count" := VObservable 0%nat; "extra" := VNum 1 ]}
      [("count", Sample.twoWay); ("ghost", BString "nowhere")] Sample.world.
Proof.
  apply (apply_reads_only_named_properties 7 Sample.viewmodel
           {[ "count" := VObservable 0%nat; "extra" := VNum 1 ]}
           [("count", Sample.twoWay); ("ghost", BString "nowhere")] Sample.world).
  intros K HK. apply list_elem_of_In in HK. simpl in HK.
  destruct HK as [<-|[<-|[]]]; reflexivity.
Defined.

(** ** What a binding establishes *)

Lemma bound_established ctx vm bs K wa wb :
  resolved vm wa -> bound ctx vm bs K wa wb -> established ctx vm bs K wa wb.
Proof.
  intros R [H T] r Hvm. destruct (R K r Hvm) as [oa Hoa].
  assert (P : property vm K = VObservable r) by by apply property_observable.
  assert (Hval : value_at (heap wa) r = obs_value oa) by (unfold value_at; by rewrite Hoa).
  split.
  - intros F HF. exists oa. split; [done|]. split.
    + rewrite H, Hoa. unfold subscription. rewrite P, HF.
      by destruct (decide (r = r)).
    + rewrite T, drop_app_length. unfold binding_events. rewrite P, Hval.
      destruct (descriptor bs K) as [[F0|props]|]; simpl in HF; [| |done].
      * injection HF as ->. by left.
      * destruct (props !! "update") as [U|]; [|done]. rewrite HF. right. by left.
  - intros props U Hd HU. rewrite T, drop_app_length.
    unfold binding_events. rewrite P, Hd, HU. by left.
Qed.

(** C2.  Let [K] be a key of the bindings.  Then [applyAll] returns, and in
    the turn of [K]: every viewmodel of the list gets its applyBinding call,
    in list order, after the calls for the viewmodels before it and whether
    or not one of those succeeded.  The call returns whether that viewmodel
    resolves [K], and it establishes the binding on that viewmodel's own
    observable: the value is pushed to the bind target and the subscriber is
    appended there, the handler is registered on the update field, and
    nothing else is done ([bound] is the whole of its effect); what it has
    subscribed is still there when the turn ends.  The warnings of the turn
    are: none when some viewmodel resolves [K], and exactly the one warning
    for [K] when none does. *)
Theorem applyAll_binds_each_and_warns_once ctx vms bs ks1 K ks2 w :
  Forall (fun vm => resolved vm w) vms ->
  keys bs = ks1 ++ K :: ks2 ->
  ∃ w1 w2 w',
    applyAll_run ctx vms bs ks1 K ks2 w w1 w2 w'
    ∧ (∀ pre vm post, vms = pre ++ vm :: post ->
         ∃ wa wb,
           Binder.applyAll_vms ctx pre bs K false w1 = (Ok (existsb (resolves K) pre), wa)
           ∧ applyBinding ctx vm bs K wa = (Ok (resolves K vm), wb)
           ∧ bound ctx vm bs K wa wb
           ∧ established ctx vm bs K wa wb
           ∧ extends w1 wa ∧ extends wb w2)
    ∧ filter (fun e => is_warning e = true) (drop (length (trace w1)) (trace w2))
      = if existsb (resolves K) vms then [] else [Warning (warning_applyAll K)].
Proof.
  intros R Hk.
  destruct (applyAll_split ctx vms bs ks1 K ks2 w R Hk) as (w1 & w2 & w' & Run & G1 & G2 & G3).
  exists w1, w2, w'. split; [done|].
  assert (InK : K ∈ keys bs).
  { rewrite Hk. apply elem_of_app. right. by left. }
  assert (R1 : Forall (fun vm => resolved vm w1) vms)
    by (eapply resolved_all_extends; [apply G1|done]).
  destruct (applyAll_key_step ctx vms bs K w1 R1 InK) as (wv & Ev & Gv & (evs & Tv & Qv) & E2).
  rewrite (proj1 (proj2 Run)) in E2. injection E2 as E2.
  split.
  - intros pre vm post ->.
    apply Forall_app in R1 as [Rpre Rrest]. apply Forall_cons in Rrest as [Rvm Rpost].
    destruct (applyAll_vms_step ctx pre bs K false w1 Rpre InK) as (wa & Ea & Ga & _).
    rewrite orb_false_r in Ea.
    assert (Rvm' : resolved vm wa) by (eapply resolved_extends; [apply Ga|done]).
    destruct (applyBinding_bound ctx vm bs K wa Rvm' InK) as (wb & Eb & Bb).
    assert (Rpost' : Forall (fun vm => resolved vm wb) post).
    { eapply Forall_impl; [exact Rpost|]. intros vm0 R0.
      apply (accumulated_resolved _ _ vm0 wa wb Bb).
      eapply resolved_extends; [apply Ga|done]. }
    destruct (applyAll_vms_step ctx post bs K (resolves K vm || existsb (resolves K) pre)
                wb Rpost' InK) as (wc & Ec & Gc & _).
    exists wa, wb. split_and!; try done; [by apply bound_established|apply Ga|].
    rewrite applyAll_vms_app in Ev. erewrite bindM_ok in Ev by exact Ea.
    simpl in Ev. erewrite bindM_ok in Ev by exact Eb.
    rewrite Ec in Ev. injection Ev as _ <-.
    eapply extends_trans; [apply Gc|]. rewrite E2.
    destruct (existsb _ _); [apply extends_refl|apply grows_emit].
  - rewrite E2. destruct (existsb (resolves K) vms); simpl.
    + rewrite Tv, drop_app_length. by apply filter_no_warning.
    + rewrite Tv, <- app_assoc, drop_app_length, filter_app.
      rewrite filter_no_warning by done. done.
Qed.

Lemma applyAll_binds_each_and_warns_once_witness :
  ∃ w1 w2 w',
    applyAll_run 7 [{[ "title" := VStr "other" ]}; Sample.viewmodel] Sample.bindings
      ["ghost"] "count" ["speed"] Sample.world w1 w2 w'
    ∧ (∀ pre vm post, [{[ "title" := VStr "other" ]}; Sample.viewmodel] = pre ++ vm :: post ->
         ∃ wa wb,
           Binder.applyAll_vms 7 pre Sample.bindings "count" false w1
             = (Ok (existsb (resolves "count") pre), wa)
           ∧ applyBinding 7 vm Sample.bindings "count" wa = (Ok (resolves "count" vm), wb)
           ∧ bound 7 vm Sample.bindings "count" wa wb
           ∧ established 7 vm Sample.bindings "count" wa wb
           ∧ extends w1 wa ∧ extends wb w2)
    ∧ filter (fun e => is_warning e = true) (drop (length (trace w1)) (trace w2))
      = if existsb (resolves "count") [{[ "title" := VStr "other" ]}; Sample.viewmodel]
        then [] else [Warning (warning_applyAll "count")].
Proof.
  apply (applyAll_binds_each_and_warns_once 7
           [{[ "title" := VStr "other" ]}; Sample.viewmodel] Sample.bindings
           ["ghost"] "count" ["speed"] Sample.world).
  - repeat constructor; apply resolvedb_sound; vm_compute; reflexivity.
  - reflexivity.
Defined.



(** ** The frame of a to-target binding, in full *)

Lemma subscription_elem ctx vm bs r K cb :
  cb ∈ subscription ctx vm bs r K ->
  ∃ F, vm !! K = Some (VObservable r)
       ∧ descriptor bs K ≫= bind_target = Some F
       ∧ cb = CbSetField ctx F.
Proof.
  unfold subscription. intros H.
  destruct (property vm K) as [| | | | | |r0|] eqn:P; try by apply elem_of_nil in H.
  destruct (descriptor bs K ≫= bind_target) as [F|]; [|by apply elem_of_nil in H].
  destruct (decide (r0 = r)) as [->|]; [|by apply elem_of_nil in H].
  apply list_elem_of_singleton in H. exists F. split_and!; try done.
  by apply property_observable.
Qed.

(** C6, amended.  Let [apply] bind [K] to [F], a to-target binding on the
    observable at [r].  The turn of [K] adds no subscriber to any other
    observable: each is left as it was.  After [apply], a [set] on another
    observable [r'] returns, and the calls it makes are those of the
    subscribers of [r'] itself, no others: the ones [r'] had before [apply],
    then the ones that the keys naming [r'] have put, in key order.  So it
    makes no [setField] call on [F] unless [r'] is itself subscribed to [F]:
    none when no subscriber it had pushes to [F] and no key of the bindings
    binds it to [F].  (A subscriber of the host's own is a callback that is
    called with the value; the calls made inside it are the host's.) *)
Theorem to_target_frame ctx vm bs ks1 K ks2 w F r :
  resolved vm w ->
  keys bs = ks1 ++ K :: ks2 ->
  descriptor bs K = Some (BString F) ->
  vm !! K = Some (VObservable r) ->
  ∃ w1 w2 w',
    apply_run ctx vm bs ks1 K ks2 w w1 w2 w'
    ∧ (∀ r', r' ≠ r -> heap w2 !! r' = heap w1 !! r')
    ∧ ∀ r' o' v, r' ≠ r -> heap w !! r' = Some o' ->
        set_notifies r' v w' (obs_subscribers o' ++ apply_subscriptions ctx vm bs r')
        ∧ set_after_apply ctx vm bs w r' v
          = map (fired v) (obs_subscribers o' ++ apply_subscriptions ctx vm bs r')
        ∧ (CbSetField ctx F ∉ obs_subscribers o' ->
           (∀ K', K' ∈ keys bs -> vm !! K' = Some (VObservable r') ->
                  descriptor bs K' ≫= bind_target ≠ Some F) ->
           filter (fun e => pushes_to ctx F e = true) (set_after_apply ctx vm bs w r' v) = []).
Proof.
  intros R Hk Hd Hvm.
  destruct (apply_split ctx vm bs ks1 K ks2 w R Hk) as (w1 & w2 & w' & Run & G1 & G2 & G3).
  exists w1, w2, w'. split; [done|]. split.
  - intros r' Hne.
    assert (R1 : resolved vm w1) by (eapply resolved_extends; [apply G1|done]).
    destruct (R1 K r Hvm) as [o1 Ho1].
    assert (P : property vm K = VObservable r) by by apply property_observable.
    pose proof (applyBinding_toTarget ctx vm bs K w1 r F o1 P Hd Ho1) as Step.
    apply apply_key_unfold in Step.
    rewrite (proj1 (proj2 Run)) in Step. injection Step as ->.
    simpl. unfold subscribed. by rewrite lookup_insert_ne.
  - intros r' o' v Hne Ho'.
    destruct (apply_exact ctx vm bs w R) as (w'' & E'' & A).
    pose proof (proj2 (proj2 (proj2 Run))) as Eall.
    rewrite Eall in E''. injection E'' as <-.
    set (subs := obs_subscribers o' ++ apply_subscriptions ctx vm bs r').
    assert (Ho'' : heap w' !! r' = Some (add_subs (apply_subscriptions ctx vm bs r') o'))
      by (by rewrite (proj1 A), Ho').
    pose proof (set_spec r' _ v w' Ho'') as Eset. simpl in Eset. fold subs in Eset.
    assert (Eafter : set_after_apply ctx vm bs w r' v = map (fired v) subs).
    { unfold set_after_apply. rewrite Eall. simpl. rewrite Eset. simpl.
      by rewrite drop_app_length. }
    split_and!.
    + eexists. split; [exact Eset|]. split; [done|].
      apply (get_spec r' (mkObservable v subs)). simpl. apply lookup_insert_eq.
    + exact Eafter.
    + intros Hfree Hother. rewrite Eafter. apply no_push_without_subscriber.
      unfold subs. intros Hin. apply elem_of_app in Hin as [Hin|Hin]; [done|].
      unfold apply_subscriptions in Hin.
      apply list_elem_of_In, in_flat_map in Hin as (K' & HK' & Hin).
      apply list_elem_of_In in HK', Hin.
      apply subscription_elem in Hin as (F' & Hvm' & Hd' & Heq).
      injection Heq as <-. by apply (Hother K').
Qed.

Lemma to_target_frame_witness :
  ∃ w1 w2 w',
    apply_run 7 Sample.viewmodel Sample.bindings ["ghost"] "count" ["speed"]
      Sample.world w1 w2 w'
    ∧ (∀ r', r' ≠ 0%nat -> heap w2 !! r' = heap w1 !! r')
    ∧ ∀ v,
        set_notifies 1%nat v w'
          ([CbHost 9] ++ apply_subscriptions 7 Sample.viewmodel Sample.bindings 1%nat)
        ∧ set_after_apply 7 Sample.viewmodel Sample.bindings Sample.world 1%nat v
          = map (fired v)
              ([CbHost 9] ++ apply_subscriptions 7 Sample.viewmodel Sample.bindings 1%nat)
        ∧ filter (fun e => pushes_to 7 "label" e = true)
                 (set_after_apply 7 Sample.viewmodel Sample.bindings Sample.world 1%nat v)
          = [].
Proof.
  destruct (to_target_frame 7 Sample.viewmodel Sample.bindings ["ghost"] "count" ["speed"]
              Sample.world "label" 0%nat) as (w1 & w2 & w' & Run & Frame & After).
  - apply resolvedb_sound. vm_compute. reflexivity.
  - reflexivity.
  - reflexivity.
  - reflexivity.
  - exists w1, w2, w'. split; [exact Run|]. split; [exact Frame|]. intros v.
    destruct (After 1%nat (mkObservable (VNum 40) [CbHost 9]) v) as (Hset & Hev & Hno).
    + lia.
    + reflexivity.
    + split; [exact Hset|]. split; [exact Hev|]. apply Hno.
      * simpl. intros H. apply list_elem_of_In in H. simpl in H.
        destruct H as [H|[]]. discriminate H.
      * intros K' HK' Hv. apply list_elem_of_In in HK'. simpl in HK'.
        destruct HK' as [<-|[<-|[<-|[]]]]; vm_compute in Hv |- *; congruence.
Defined.

(** Run, on the bindings that share a field and on bindings that do not:
    [set(5)] on the observable of [speed], which had one subscriber of the
    host's. *)
Example set_on_the_other_observable :
  set_after_apply 7 Sample.viewmodel
    [("count", BString "label"); ("speed", BString "label")] Sample.world 1%nat (VNum 5)
  = [Invoked 9 (VNum 5); SetField 7 "label" (VNum 5)]
  ∧ set_after_apply 7 Sample.viewmodel
      [("count", BString "label"); ("speed", BString "dial")] Sample.world 1%nat (VNum 5)
    = [Invoked 9 (VNum 5); SetField 7 "dial" (VNum 5)]
  ∧ set_after_apply 7 Sample.viewmodel Sample.bindings Sample.world 1%nat (VNum 5)
    = [Invoked 9 (VNum 5)].
Proof. vm_compute. done. Qed.

(** ** The component and the other widgets, for any subclass *)

(** The subclasses of [Component] are the methods that work on the widget
    they are given. *)
Lemma active_of_widget_subclass {Look} (refreshWidget : Component.Fields -> M (Component.Widget Look) unit)
    toggle st :
  Component.active refreshWidget toggle st
  = Subclass.active
      (fun h st => Component.on_widget h (refreshWidget (Component.this st)) st) toggle st.
Proof. reflexivity. Qed.

Lemma bind_of_widget_subclass {Look} (refreshWidget : Component.Fields -> M (Component.Widget Look) unit)
    window st :
  Component.bind refreshWidget window st
  = Subclass.bind
      (fun h st => Component.on_widget h (refreshWidget (Component.this st)) st) window st.
Proof. reflexivity. Qed.

Lemma widget_subclass_keeps_fields {Look}
    (refreshWidget : Component.Fields -> M (Component.Widget Look) unit) :
  Subclass.keeps_fields
    (fun h st => Component.on_widget h (refreshWidget (Component.this st)) st).
Proof. intros h st. apply on_widget_this. Qed.

Lemma widget_subclass_keeps_other_widgets {Look}
    (refreshWidget : Component.Fields -> M (Component.Widget Look) unit) :
  Subclass.keeps_other_widgets
    (fun h st => Component.on_widget h (refreshWidget (Component.this st)) st).
Proof. intros h h' st Hne. by apply on_widget_frame. Qed.

Section SubclassFrame.
Context {Look : Type}.
Variable refreshWidget : Component.Handle -> M (Component.State Look) unit.
Hypothesis Hfields : Subclass.keeps_fields refreshWidget.
Hypothesis Hothers : Subclass.keeps_other_widgets refreshWidget.

(** X10.  For a subclass whose refreshWidget does not assign the component's
    fields and touches no widget but the one it is given: whether they return
    or throw, [active] and [refresh] leave the component's fields as they
    were and touch no widget but the one the component names in the window it
    is bound to; every other widget, of that window or of another, is as
    before. *)
Theorem active_and_refresh_touch_only_their_widget (toggle : bool)
    (st : Component.State Look) (h' : Component.Handle) :
  (∀ host, Component._window (Component.this st) = Some host ->
           h' ≠ (host, Component.name (Component._description (Component.this st)))) ->
  (Component.this (Subclass.active refreshWidget toggle st).2 = Component.this st
   ∧ Component.widget_at h' (Subclass.active refreshWidget toggle st).2
     = Component.widget_at h' st)
  ∧ (Component.this (Subclass.refresh refreshWidget st).2 = Component.this st
     ∧ Component.widget_at h' (Subclass.refresh refreshWidget st).2
       = Component.widget_at h' st).
Proof.
  intros Hother. destruct (getWidget_handle st) as [Hst Hh].
  unfold Subclass.active, Subclass.refresh, bindM.
  destruct (Component.getWidget st) as [[h|e] st0] eqn:G; simpl in Hst; subst st0;
    [|by split].
  destruct (Hh h eq_refl) as (host & Hwin & ->).
  specialize (Hother host Hwin).
  set (h := (host, Component.name (Component._description (Component.this st)))) in *.
  split.
  - pose proof (on_widget_this h
                  (modify (fun wd => Component.mkWidget (negb toggle) (Component.look wd))) st)
      as T1.
    pose proof (on_widget_frame h h'
                  (modify (fun wd => Component.mkWidget (negb toggle) (Component.look wd))) st
                  Hother) as F1.
    destruct (Component.on_widget h _ st) as [[[]|e] st1]; simpl in T1, F1; [|by split].
    split.
    + by rewrite Hfields.
    + by rewrite Hothers.
  - split; [apply Hfields|by apply Hothers].
Qed.

(** X11.  For a subclass whose refreshWidget does not assign the component's
    fields and touches no widget but the one it is given: whether it returns
    or throws, [bind(host)] leaves the component bound to [host] (the window
    is stored before [refresh] runs), with the description it had, and
    touches no widget but the one the component names in [host]. *)
Theorem bind_stores_the_window_whatever_refresh_does (st : Component.State Look)
    (host : nat) :
  Component.this (Subclass.bind refreshWidget host st).2
  = Component.mkFields (Some host) (Component._description (Component.this st))
  ∧ ∀ h', h' ≠ (host, Component.name (Component._description (Component.this st))) ->
          Component.widget_at h' (Subclass.bind refreshWidget host st).2
          = Component.widget_at h' st.
Proof.
  unfold Subclass.bind, bindM, modify.
  set (sta := Component.mkState
                (Component.mkFields (Some host) (Component._description (Component.this st)))
                (Component.windows st)).
  destruct (getWidget_handle sta) as [Hst Hh].
  unfold Subclass.refresh, bindM.
  destruct (Component.getWidget sta) as [[h|e] st0] eqn:G; simpl in Hst; subst st0.
  - destruct (Hh h eq_refl) as (host' & Hwin & ->). simpl in Hwin.
    injection Hwin as <-. simpl. split.
    + by rewrite Hfields.
    + intros h' Hne. by rewrite Hothers.
  - simpl. by split.
Qed.
End SubclassFrame.

Lemma active_and_refresh_touch_only_their_widget_witness :
  let st := (Subclass.bind SampleSubclass.refreshWidget 3%nat SampleComponent.state).2 in
  (Component.this (Subclass.active SampleSubclass.refreshWidget true st).2
   = Component.this st
   ∧ Component.widget_at (3%nat, "other")
       (Subclass.active SampleSubclass.refreshWidget true st).2
     = Component.widget_at (3%nat, "other") st)
  ∧ (Component.this (Subclass.refresh SampleSubclass.refreshWidget st).2
     = Component.this st
     ∧ Component.widget_at (3%nat, "other")
         (Subclass.refresh SampleSubclass.refreshWidget st).2
       = Component.widget_at (3%nat, "other") st).
Proof.
  apply (active_and_refresh_touch_only_their_widget SampleSubclass.refreshWidget
           (widget_subclass_keeps_fields SampleComponent.refreshWidget)
           (widget_subclass_keeps_other_widgets SampleComponent.refreshWidget) true
           (Subclass.bind SampleSubclass.refreshWidget 3%nat SampleComponent.state).2
           (3%nat, "other")).
  intros host H. vm_compute in H. injection H as <-. discriminate.
Defined.

Lemma bind_stores_the_window_whatever_refresh_does_witness :
  Component.this (Subclass.bind SampleSubclass.refreshWidget 3%nat SampleSubclass.astray).2
  = Component.mkFields (Some 3%nat)
      (Component._description (Component.this SampleSubclass.astray))
  ∧ ∀ h', h' ≠ (3%nat, Component.name
                         (Component._description (Component.this SampleSubclass.astray))) ->
          Component.widget_at h'
            (Subclass.bind SampleSubclass.refreshWidget 3%nat SampleSubclass.astray).2
          = Component.widget_at h' SampleSubclass.astray.
Proof.
  apply (bind_stores_the_window_whatever_refresh_does SampleSubclass.refreshWidget
           (widget_subclass_keeps_fields SampleComponent.refreshWidget)
           (widget_subclass_keeps_other_widgets SampleComponent.refreshWidget)
           SampleSubclass.astray 3%nat).
Defined.

(** Run: a host without the widget makes [bind] throw, and the component is
    bound to it all the same; a subclass that assigns [_window] in
    refreshWidget is not covered, and leaves the component unbound. *)
Example bind_to_a_host_without_the_widget :
  (Subclass.bind SampleSubclass.refreshWidget 3%nat SampleSubclass.astray).1
  = Throw (JsError "widget not found")
  ∧ Component._window
      (Component.this
         (Subclass.bind SampleSubclass.refreshWidget 3%nat SampleSubclass.astray).2)
    = Some 3%nat
  ∧ (Subclass.bind SampleSubclass.forgetful 3%nat SampleComponent.state).1 = Ok tt
  ∧ Component._window
      (Component.this
         (Subclass.bind SampleSubclass.forgetful 3%nat SampleComponent.state).2)
    = None.
Proof. vm_compute. done. Qed.
